(** * nvbio-benchmarks: the sequence store, the batch packer and the benchmark driver

    A shallow embedding of [nvbio-benchmarks.cu].  Fixed-width C++ integers are
    modelled as [Z] with their wrap-around written out, host memory as lists of
    characters, the accumulated time as an IEEE binary64 number, and the
    process environment (file system, allocator, clock, memory that lies next
    to an object) as an explicit record the program is run against. *)

From Stdlib Require Import ZArith Bool String Ascii Floats List Lia.
Import ListNotations.
Local Open Scope Z_scope.

(** ** Machine integers *)

Module Int.

Definition SIZE_MOD : Z := 2 ^ 64.
Definition UINT32_MOD : Z := 2 ^ 32.
Definition INT_MAX : Z := 2 ^ 31 - 1.
Definition INT_MIN : Z := - 2 ^ 31.
Definition LONG_MAX : Z := 2 ^ 63 - 1.
Definition LONG_MIN : Z := - 2 ^ 63.

(** Conversion to [size_t] / [uint64_t]: reduction modulo 2^64. *)
Definition to_size_t (z : Z) : Z := z mod SIZE_MOD.

(** Conversion to [uint32_t] / nvbio's [uint32]. *)
Definition to_uint32 (z : Z) : Z := z mod UINT32_MOD.

(** Conversion to [int] (two's complement, 32 bits).  Signed overflow of an
    [int] operation is undefined in C++; where the source can overflow, the
    model wraps, and the theorems carry the range that excludes it. *)
Definition to_int (z : Z) : Z := (z + 2 ^ 31) mod UINT32_MOD - 2 ^ 31.

Definition in_int (z : Z) : Prop := INT_MIN <= z <= INT_MAX.

End Int.
Import Int.

(** ** Characters and host memory *)

Definition NUL : ascii := Ascii.zero.
Definition NEWLINE : ascii := "010"%char.

Definition chars (s : string) : list ascii := list_ascii_of_string s.

(** [nzeros n]: [n] zero bytes, what [memset(p, 0, n)] leaves. *)
Definition nzeros (n : nat) : list ascii := repeat NUL n.

(** The C string that starts at a pointer into [mem]: the characters up to
    the first NUL (the end of the modelled memory counts as one). *)
Fixpoint c_string (mem : list ascii) : list ascii :=
  match mem with
  | [] => []
  | c :: rest => if Ascii.eqb c NUL then [] else c :: c_string rest
  end.

(** [strncpy(dst, src, n)] writes exactly [n] bytes: the first [n] characters
    of the C string at [src], then NULs up to [n]. *)
Definition strncpy_bytes (src : list ascii) (n : nat) : list ascii :=
  let s := firstn n (c_string src) in
  s ++ nzeros (n - length s).

(** Overwrite [bytes] into [buf] at offset [off].  A write that does not fit
    in the allocation is a heap overflow, undefined in C++: [None]. *)
Definition write_at (buf : list ascii) (off : Z) (bytes : list ascii)
  : option (list ascii) :=
  if (0 <=? off) && (off + Z.of_nat (length bytes) <=? Z.of_nat (length buf))
  then Some (firstn (Z.to_nat off) buf ++ bytes
             ++ skipn (Z.to_nat off + length bytes) buf)
  else None.

(** The byte at offset [off] from the start of the allocation [buf].  A read
    past the allocation is undefined in C++; on the machine it returns the
    bytes that lie next to it, which the model takes as [after]. *)
Definition byte_at (buf : list ascii) (after : Z -> ascii) (off : Z) : ascii :=
  if off <? Z.of_nat (length buf)
  then nth (Z.to_nat off) buf NUL
  else after (off - Z.of_nat (length buf)).

(** [len] bytes from offset [off]: the source operand of a [memcpy]. *)
Definition read_at (buf : list ascii) (after : Z -> ascii) (off : Z) (len : nat)
  : list ascii :=
  map (fun j => byte_at buf after (off + Z.of_nat j)) (seq 0 len).

(** The bytes of the [i]-th [stride]-sized slot of a buffer. *)
Definition slot (buf : list ascii) (stride : nat) (i : nat) : list ascii :=
  firstn stride (skipn (i * stride) buf).

(** ** std::getline over the file's contents *)

(** The lines [std::getline] extracts one after the other: each ends at a
    newline (consumed, not stored) or at the end of the file; a final newline
    opens no further line.  [cur] is the line under construction, reversed. *)
Fixpoint getlines_from (cur : list ascii) (content : list ascii)
  : list (list ascii) :=
  match content with
  | [] => match cur with [] => [] | _ => [rev cur] end
  | c :: rest =>
      if Ascii.eqb c NEWLINE then rev cur :: getlines_from [] rest
      else getlines_from (c :: cur) rest
  end.

Definition getlines (content : list ascii) : list (list ascii) :=
  getlines_from [] content.

(** ** The environment of a run *)

Record Env := {
  (** the contents of the file at a path, [None] when it cannot be opened *)
  fs_open : string -> option (list ascii);
  (** whether [new char[n]] succeeds (otherwise [std::bad_alloc]) *)
  new_char_ok : Z -> bool;
  (** whether [new int[n]] succeeds *)
  new_int_ok : Z -> bool;
  (** the bytes that follow the terminator of [line] while sequence number
      [i] is read: the memory [line.c_str() + 1] points to when the line is
      empty *)
  line_stale : Z -> list ascii;
  (** the memory that follows [sequences_buffer] *)
  heap_after : Z -> ascii;
  (** the reading of the timer around the file loop, in ms *)
  read_timer_ms : Z;
  (** the reading of the timer of the batch at offset and size, in ms *)
  batch_timer_ms : Z -> Z -> Z
}.

(** ** What the process prints *)

Inductive event :=
| OutSequencesInfo (filepath : string) (seq_len num_alignments : Z)
| OutAllocating (mib : Z)
| ErrBadAlloc
| ErrCouldNotOpen (filepath : string)
| OutRead (sequences_read ms : Z)
| ErrUsage
| ErrBatchSizeChanged (num_alignments : Z)
| OutBatchSizeSet (batch_size : Z)
| ErrBatchExecuted (cnt : Z)
| OutPerformance (num_alignments : Z) (total_time gcups : float).

(** [true] for what goes to [std::cerr], [false] for [std::cout]. *)
Definition on_stderr (e : event) : bool :=
  match e with
  | ErrBadAlloc | ErrCouldNotOpen _ | ErrUsage
  | ErrBatchSizeChanged _ | ErrBatchExecuted _ => true
  | _ => false
  end.

(** How a run ends. *)
Inductive outcome :=
| Exit (code : Z)      (** [return code] from [main], or [exit(code)] *)
| Terminate            (** an exception nobody catches: [std::terminate] *)
| Undefined.           (** a write outside an allocation *)

(** The status the parent process sees: the low 8 bits of the code;
    [std::terminate] aborts, which the shell reports as 128 + SIGABRT. *)
Definition exit_status (o : outcome) : option Z :=
  match o with
  | Exit code => Some (code mod 256)
  | Terminate => Some 134
  | Undefined => None
  end.

Definition EXIT_FAILURE : Z := 1.

(** ** The sequence store: class [Sequences] *)

Record Sequences := {
  seq_len : Z;                          (** [size_t seq_len] *)
  num_alignments : Z;                   (** [size_t num_alignments] *)
  sequences_buffer : list ascii;        (** [char* sequences_buffer] *)
  (** [int* sequences_len]: [new int[n]] leaves its elements without a
      value; [None] is an element nothing was stored in yet. *)
  sequences_len : list (option Z)
}.

(** [Sequences::get_sequence(n)], as the offset of the returned pointer from
    [sequences_buffer] (release build: the range check is compiled out). *)
Definition get_sequence (s : Sequences) (n : Z) : Z :=
  to_size_t (seq_len s * n).

(** [line.c_str() + 1]: for a line that has a first character, the memory
    from its second character on, closed by the terminator.  For an empty
    line the pointer is one past the terminator: it reads what follows the
    string in memory, [stale], not the line. *)
Definition c_str_plus_1 (line stale : list ascii) : list ascii :=
  match line with
  | [] => stale
  | _ :: rest => rest ++ [NUL]
  end.

(** [a[i] = v] on the length array; outside the array it is a heap
    overflow. *)
Definition store_int (a : list (option Z)) (i : Z) (v : Z)
  : option (list (option Z)) :=
  if (0 <=? i) && (i <? Z.of_nat (length a))
  then Some (firstn (Z.to_nat i) a ++ Some v :: skipn (S (Z.to_nat i)) a)
  else None.

(** The read loop of the constructor (lines 93-102), one iteration per line
    that [std::getline] delivers:

      while (std::getline(file, line) && sequences_read < (num_alignments*2))
        { strncpy(get_sequence(sequences_read), line.c_str() + 1, seq_len);
          sequences_len[sequences_read] = line.length() - 1;
          sequences_read++; }

    [limit] is [num_alignments*2] converted to [size_t] for the comparison.
    The result is the final [sequences_read] and the two arrays, or [None]
    after a write outside them. *)
Fixpoint read_sequences (env : Env) (this : Sequences) (limit : Z)
    (lines : list (list ascii)) (sequences_read : Z)
  : option (Z * Sequences) :=
  match lines with
  | [] => Some (sequences_read, this)
  | line :: rest =>
      if sequences_read <? limit then
        match write_at (sequences_buffer this) (get_sequence this sequences_read)
                (strncpy_bytes (c_str_plus_1 line (line_stale env sequences_read))
                   (Z.to_nat (seq_len this))),
              store_int (sequences_len this) sequences_read
                (to_int (to_size_t (Z.of_nat (length line) - 1)))
        with
        | Some buf, Some lens =>
            read_sequences env
              {| seq_len := seq_len this;
                 num_alignments := num_alignments this;
                 sequences_buffer := buf;
                 sequences_len := lens |}
              limit rest (to_size_t (sequences_read + 1))
        | _, _ => None
        end
      else Some (sequences_read, this)
  end.

(** What the constructor leaves behind. *)
Inductive constructed :=
| Built (this : Sequences) (out : list event)
| Stopped (o : outcome) (out : list event).

(** [Sequences::Sequences(filepath, seq_len, num_alignments)], both numbers
    being [int] arguments. *)
Definition Sequences_new (env : Env) (filepath : string)
    (seq_len_arg num_alignments_arg : Z) : constructed :=
  let out0 := [OutSequencesInfo filepath seq_len_arg num_alignments_arg] in
  let seq_bytes_to_alloc :=
    to_size_t (to_size_t (to_size_t num_alignments_arg * to_size_t seq_len_arg) * 2) in
  let out1 := out0 ++ [OutAllocating (seq_bytes_to_alloc / 2 ^ 20)] in
  if negb (new_char_ok env seq_bytes_to_alloc) then
    (* catch (std::bad_alloc&): exit(-1) *)
    Stopped (Exit (-1)) (out1 ++ [ErrBadAlloc])
  else
    let n_len := to_size_t (to_size_t num_alignments_arg * 2) in
    if negb (new_int_ok env n_len) then
      (* outside the try block *)
      Stopped Terminate out1
    else
      let this :=
        {| seq_len := to_size_t seq_len_arg;
           num_alignments := to_size_t num_alignments_arg;
           sequences_buffer := nzeros (Z.to_nat seq_bytes_to_alloc);
           sequences_len := repeat None (Z.to_nat n_len) |} in
      match fs_open env filepath with
      | None => Stopped (Exit (-1)) (out1 ++ [ErrCouldNotOpen filepath])
      | Some content =>
          match read_sequences env this
                  (to_size_t (to_int (num_alignments_arg * 2)))
                  (getlines content) 0 with
          | Some (sequences_read, built) =>
              Built built (out1 ++ [OutRead sequences_read (read_timer_ms env)])
          | None => Stopped Undefined out1
          end
      end.

(** ** The batch packer and the device executor: [batch_alignment_test] *)

(** One of the two copy loops (lines 151-156 and 158-162):

      for (uint32 i = 0; i < n_strings; i++)
        memcpy(&h[i * len], sequences.get_sequence(batch_offset + e(i)),
               sequences.seq_len);

    [src_index i] is the [uint32] expression [e(i)]; [todo] counts the
    iterations left, [i] is the loop variable.  [None]: a [memcpy] wrote
    outside the host vector. *)
Fixpoint copy_loop (env : Env) (sequences : Sequences) (batch_offset len : Z)
    (src_index : Z -> Z) (todo : nat) (i : Z) (h : list ascii)
  : option (list ascii) :=
  match todo with
  | O => Some h
  | S todo' =>
      match write_at h (to_uint32 (i * len))
              (read_at (sequences_buffer sequences) (heap_after env)
                 (get_sequence sequences (to_size_t (batch_offset + src_index i)))
                 (Z.to_nat (seq_len sequences))) with
      | Some h' =>
          copy_loop env sequences batch_offset len src_index todo' (i + 1) h'
      | None => None
      end
  end.

(** [i*2] and [(i+1)*2], computed in [uint32]. *)
Definition pattern_index (i : Z) : Z := to_uint32 (i * 2).
Definition text_index (i : Z) : Z := to_uint32 (to_uint32 (i + 1) * 2).

(** [thrust::sequence(begin, end, 0u, len)] over [n] elements. *)
Definition thrust_sequence (n : nat) (len : Z) : list Z :=
  map (fun k => to_uint32 (Z.of_nat k * len)) (seq 0 n).

(** Conversion of an integer to [double], rounding to nearest. *)
Definition double_of_Z (z : Z) : float :=
  SF2Prim (binary_normalize 53 1024 z 0 false).

(** What one call hands to the device and leaves in [*time]. *)
Record BatchRun := {
  h_pattern : option (list ascii);
  h_text : option (list ascii);
  d_pattern_offsets : list Z;
  d_text_offsets : list Z;
  time_after : float
}.

(** [batch_alignment_test(sequences, batch_offset, batch_size, time)].  The
    alignment itself runs in the external library and returns nothing to
    the caller: of the device part only the timer reading is kept. *)
Definition batch_alignment_test (env : Env) (sequences : Sequences)
    (batch_offset batch_size : Z) (time : float) : BatchRun :=
  let n_strings := batch_size in
  let pattern_len := to_uint32 (seq_len sequences) in
  let text_len := to_uint32 (seq_len sequences) in
  let h_pattern0 := nzeros (Z.to_nat (to_uint32 (n_strings * pattern_len))) in
  let h_text0 := nzeros (Z.to_nat (to_uint32 (n_strings * text_len))) in
  {| h_pattern := copy_loop env sequences batch_offset pattern_len pattern_index
                    (Z.to_nat n_strings) 0 h_pattern0;
     h_text := copy_loop env sequences batch_offset text_len text_index
                 (Z.to_nat n_strings) 0 h_text0;
     d_pattern_offsets :=
       thrust_sequence (Z.to_nat (to_uint32 (n_strings + 1))) pattern_len;
     d_text_offsets :=
       thrust_sequence (Z.to_nat (to_uint32 (n_strings + 1))) text_len;
     time_after :=
       PrimFloat.add time
         (double_of_Z (batch_timer_ms env batch_offset batch_size)) |}.

(** ** The benchmark driver: [main] *)

(** [std::atoi], as glibc has it: [(int) strtol(s, NULL, 10)]. *)
Definition is_space (c : ascii) : bool :=
  let n := nat_of_ascii c in
  (n =? 32)%nat || ((9 <=? n)%nat && (n <=? 13)%nat).

Definition digit_of (c : ascii) : option Z :=
  let n := nat_of_ascii c in
  if (48 <=? n)%nat && (n <=? 57)%nat then Some (Z.of_nat n - 48) else None.

Fixpoint skip_spaces (s : list ascii) : list ascii :=
  match s with
  | c :: rest => if is_space c then skip_spaces rest else s
  | [] => []
  end.

Fixpoint digits_value (acc : Z) (s : list ascii) : Z :=
  match s with
  | c :: rest =>
      match digit_of c with
      | Some d => digits_value (acc * 10 + d) rest
      | None => acc
      end
  | [] => acc
  end.

Definition strtol (s : string) : Z :=
  let v :=
    match skip_spaces (chars s) with
    | c :: rest =>
        if Ascii.eqb c "-"%char then - digits_value 0 rest
        else if Ascii.eqb c "+"%char then digits_value 0 rest
        else digits_value 0 (c :: rest)
    | [] => 0
    end in
  Z.max LONG_MIN (Z.min LONG_MAX v).

Definition atoi (s : string) : Z := to_int (strtol s).

(** The throughput expression of line 255:

      (double)((num_alignments * (uint64_t)(seq_size*seq_size))
               / (total_time/1000)) / 1000000000 *)
Definition gcups (num_alignments_arg seq_size : Z) (total_time : float) : float :=
  let cells :=
    to_size_t (to_size_t num_alignments_arg
               * to_size_t (to_int (seq_size * seq_size))) in
  PrimFloat.div
    (PrimFloat.div (double_of_Z cells)
       (PrimFloat.div total_time (double_of_Z 1000)))
    (double_of_Z 1000000000).

(** Lines 224-230: the batch size the loop runs with, and what is printed. *)
Definition clamp_batch_size (batch_size num_alignments_arg : Z) : Z * event :=
  if batch_size >? to_size_t num_alignments_arg
  then (to_size_t num_alignments_arg, ErrBatchSizeChanged num_alignments_arg)
  else (batch_size, OutBatchSizeSet batch_size).

(** The variables of the loop of lines 239-249.  [calls] lists the
    [(batch_offset, batch_size)] of the calls of [batch_alignment_test] made
    so far, oldest first; [printed] what the loop wrote.  [fault] is the
    number of the first batch one of whose copies wrote outside its host
    vector, if there was one: from that call on the run is undefined. *)
Record Driver := {
  total_time : float;
  alignments_computed : Z;
  cnt : Z;
  calls : list (Z * Z);
  printed : list event;
  fault : option Z
}.

Definition driver_init : Driver :=
  {| total_time := PrimFloat.zero; alignments_computed := 0; cnt := 0;
     calls := []; printed := []; fault := None |}.

(** Whether both copy loops of a call stayed inside their host vectors. *)
Definition copies_defined (run : BatchRun) : bool :=
  match h_pattern run, h_text run with
  | Some _, Some _ => true
  | _, _ => false
  end.

(** One pass through the body of the loop.  The host vectors of the call
    are local to it: of [batch_alignment_test] the loop keeps the time, and
    the model whether its copies were defined.  The windows, the counters
    and the messages are those the code computes; after a fault they say
    nothing about the process, whose outcome is then [Undefined]. *)
Definition driver_step (env : Env) (sequences : Sequences)
    (batch_size num_alignments_arg : Z) (d : Driver) : Driver :=
  let curr_batch_size :=
    Z.min batch_size
      (to_size_t (to_size_t num_alignments_arg - alignments_computed d)) in
  let run :=
    batch_alignment_test env sequences (alignments_computed d)
      (to_uint32 curr_batch_size) (total_time d) in
  {| total_time := time_after run;
     alignments_computed := to_size_t (alignments_computed d + batch_size);
     cnt := to_int (cnt d + 1);
     calls := calls d ++ [(alignments_computed d, to_uint32 curr_batch_size)];
     printed := printed d ++ [ErrBatchExecuted (cnt d)];
     fault :=
       match fault d with
       | Some c => Some c
       | None => if copies_defined run then None else Some (cnt d)
       end |}.

(** [while (alignments_computed < num_alignments) { ... }].  The loop need
    not end: [fuel] bounds the number of passes, [None] is a loop that is
    still running when the fuel is spent. *)
Fixpoint driver_loop (env : Env) (sequences : Sequences)
    (batch_size num_alignments_arg : Z) (fuel : nat) (d : Driver)
  : option Driver :=
  if alignments_computed d <? to_size_t num_alignments_arg then
    match fuel with
    | O => None
    | S fuel' =>
        driver_loop env sequences batch_size num_alignments_arg fuel'
          (driver_step env sequences batch_size num_alignments_arg d)
    end
  else Some d.

(** [main(argc, argv)], [argc] being the length of [argv].  The three
    [atoi] calls have no effect besides their value and are written after
    the test on [argc] that the source makes last.  A run in which a copy
    of batch [c] left its host vector is [Undefined]; what it printed
    before that batch is kept. *)
Definition main (env : Env) (fuel : nat) (argv : list string)
  : option (outcome * list event) :=
  let argc := Z.of_nat (length argv) in
  if (argc <? 4) || (argc >? 5) then Some (Exit EXIT_FAILURE, [ErrUsage])
  else
    let filepath := nth 1 argv EmptyString in
    let seq_size := atoi (nth 2 argv EmptyString) in
    let num_alignments_arg := atoi (nth 3 argv EmptyString) in
    let batch_size0 :=
      if argc =? 5 then to_size_t (atoi (nth 4 argv EmptyString)) else 50000 in
    let (batch_size, msg) := clamp_batch_size batch_size0 num_alignments_arg in
    match Sequences_new env filepath seq_size num_alignments_arg with
    | Stopped o out => Some (o, msg :: out)
    | Built sequences out =>
        match driver_loop env sequences batch_size num_alignments_arg fuel
                driver_init with
        | None => None
        | Some d =>
            match fault d with
            | Some c =>
                Some (Undefined, msg :: out ++ firstn (Z.to_nat c) (printed d))
            | None =>
                Some (Exit 0,
                      msg :: out ++ printed d
                      ++ [OutPerformance num_alignments_arg (total_time d)
                            (gcups num_alignments_arg seq_size (total_time d))])
            end
        end
    end.

(** * The vocabulary of the statements *)

(** ** The store in closed form *)

(** What the loop stores for the lines it handles, the first of them being
    sequence number [k]: the bytes of their slots and their lengths. *)
Fixpoint stored_slots (env : Env) (stride : nat) (k : Z)
    (lines : list (list ascii)) : list (list ascii) :=
  match lines with
  | [] => []
  | line :: rest =>
      strncpy_bytes (c_str_plus_1 line (line_stale env k)) stride
      :: stored_slots env stride (k + 1) rest
  end.

Definition stored_len (line : list ascii) : option Z :=
  Some (to_int (to_size_t (Z.of_nat (length line) - 1))).

(** The store the constructor builds from the lines of a file, in closed
    form: one slot per line for the first [pairs * 2] lines, zeros after
    them; one recorded length per line, and no value after them. *)
Definition built_store (env : Env) (stride pairs : Z) (content : list ascii)
  : Sequences :=
  let slots := Z.to_nat (pairs * 2) in
  let filled := Nat.min slots (length (getlines content)) in
  {| seq_len := stride;
     num_alignments := pairs;
     sequences_buffer :=
       concat (stored_slots env (Z.to_nat stride) 0
                 (firstn slots (getlines content)))
       ++ nzeros ((slots - filled) * Z.to_nat stride);
     sequences_len :=
       map stored_len (firstn slots (getlines content))
       ++ repeat None (slots - filled) |}.

(** The conditions under which the constructor returns: its two [int]
    arguments are not negative, twice the number of pairs is an [int], both
    allocations succeed and the file opens, with contents [content]. *)
Definition constructible (env : Env) (filepath : string) (stride pairs : Z)
    (content : list ascii) : Prop :=
  0 <= stride <= INT_MAX /\
  (0 <= pairs /\ pairs * 2 <= INT_MAX) /\
  new_char_ok env (pairs * stride * 2) = true /\
  new_int_ok env (pairs * 2) = true /\
  fs_open env filepath = Some content.

(** Slot [i] of the store is zero from offset [true_length] on. *)
Definition zero_padded (this : Sequences) (i : nat) (true_length : Z) : Prop :=
  forall j : nat,
    true_length <= Z.of_nat j -> (j < Z.to_nat (seq_len this))%nat ->
    nth j (slot (sequences_buffer this) (Z.to_nat (seq_len this)) i) NUL = NUL.

(** ** The calls of the driver *)

(** The arguments of [k] successive calls, the first at [offset]: each
    window starts [batch_size] after the one before it and is cut to what
    is left of [total]. *)
Fixpoint batch_windows (batch_size total : Z) (k : nat) (offset : Z)
  : list (Z * Z) :=
  match k with
  | O => []
  | S k' =>
      (offset, Z.min batch_size (total - offset))
      :: batch_windows batch_size total k' (offset + batch_size)
  end.

(** The messages of [k] successive batches, the first numbered [c]. *)
Fixpoint batch_messages (k : nat) (c : Z) : list event :=
  match k with
  | O => []
  | S k' => ErrBatchExecuted c :: batch_messages k' (c + 1)
  end.

(** [ceil(total / batch_size)], for a positive [batch_size]. *)
Definition ceil_div (total batch_size : Z) : Z :=
  (total + batch_size - 1) / batch_size.

(** The batch size before the clamp: the fifth argument when there is one,
    50000 otherwise. *)
Definition given_batch_size (rest : list string) : Z :=
  match rest with
  | [] => 50000
  | b :: _ => to_size_t (atoi b)
  end.

(** ** The reads of the packer *)

(** The bytes the [i]-th pass of a copy loop reads. *)
Definition copied (env : Env) (sequences : Sequences) (batch_offset : Z)
    (src_index : Z -> Z) (i : nat) : list ascii :=
  read_at (sequences_buffer sequences) (heap_after env)
    (get_sequence sequences (to_size_t (batch_offset + src_index (Z.of_nat i))))
    (Z.to_nat (seq_len sequences)).

(** ** Files in the documented format *)

(** A file written line by line, each line closed by a newline. *)
Definition file_of_lines (lines : list (list ascii)) : list ascii :=
  concat (map (fun line => line ++ [NEWLINE]) lines).

(** A line of the format: the marker, then the sequence. *)
Definition marked_line (record : ascii * list ascii) : list ascii :=
  fst record :: snd record.

(** A sequence that can be stored as it is: it has no newline and no NUL,
    and it fits the stride. *)
Definition storable (stride : Z) (record : ascii * list ascii) : Prop :=
  fst record <> NEWLINE /\ ~ In NEWLINE (snd record) /\
  ~ In NUL (snd record) /\ Z.of_nat (length (snd record)) <= stride.

(** A sequence followed by its padding. *)
Definition padded (stride : Z) (record : ascii * list ascii) : list ascii :=
  snd record ++ nzeros (Z.to_nat stride - length (snd record)).

(** ** Example runs *)

(** A small run: two pairs of stride 4, both allocations succeed, the file
    [reads.txt] holds four marked lines. *)
Definition example_file : string :=
  String.concat (String NEWLINE EmptyString)
    [">ACGT"; "<AC"; ">GATTACA"; "<TTTT"; ""]%string.

Definition example_env : Env :=
  {| fs_open := fun p =>
       if String.eqb p "reads.txt" then Some (chars example_file) else None;
     new_char_ok := fun _ => true;
     new_int_ok := fun _ => true;
     line_stale := fun _ => [];
     heap_after := fun _ => NUL;
     read_timer_ms := 0;
     batch_timer_ms := fun _ _ => 1 |}.

(** A file whose second line is empty.  While that line is read, the
    buffer of [line] still holds the characters of the line before it
    behind the new terminator (libstdc++ and libc++ both keep the buffer
    and only reset the length): [line_stale] says so. *)
Definition blank_line_file : string :=
  String.concat (String NEWLINE EmptyString) [">ACGT"; ""; ""]%string.

Definition blank_line_env : Env :=
  {| fs_open := fun p =>
       if String.eqb p "reads.txt" then Some (chars blank_line_file) else None;
     new_char_ok := fun _ => true;
     new_int_ok := fun _ => true;
     line_stale := fun _ => chars "ACGT" ++ [NUL];
     heap_after := fun _ => NUL;
     read_timer_ms := 0;
     batch_timer_ms := fun _ _ => 1 |}.

(** Two pairs of stride 2 with four different sequences: AA/CC and
    GG/TT. *)
Definition pairs_file : string :=
  String.concat (String NEWLINE EmptyString)
    [">AA"; "<CC"; ">GG"; "<TT"; ""]%string.

Definition pairs_env : Env :=
  {| fs_open := fun p =>
       if String.eqb p "reads.txt" then Some (chars pairs_file) else None;
     new_char_ok := fun _ => true;
     new_int_ok := fun _ => true;
     line_stale := fun _ => [];
     heap_after := fun _ => NUL;
     read_timer_ms := 0;
     batch_timer_ms := fun _ _ => 1 |}.

(** An environment in which no allocation succeeds. *)
Definition no_memory_env : Env :=
  {| fs_open := fs_open example_env;
     new_char_ok := fun _ => false;
     new_int_ok := fun _ => false;
     line_stale := fun _ => [];
     heap_after := fun _ => NUL;
     read_timer_ms := 0;
     batch_timer_ms := fun _ _ => 1 |}.

(** An environment in which only the array of lengths cannot be
    allocated. *)
Definition lengths_fail_env : Env :=
  {| fs_open := fs_open example_env;
     new_char_ok := fun _ => true;
     new_int_ok := fun _ => false;
     line_stale := fun _ => [];
     heap_after := fun _ => NUL;
     read_timer_ms := 0;
     batch_timer_ms := fun _ _ => 1 |}.

(** The file of [example_env] with two more lines after its four, and an
    environment that holds both files. *)
Definition longer_file : string :=
  String.concat (String NEWLINE EmptyString)
    [">ACGT"; "<AC"; ">GATTACA"; "<TTTT"; ">GG"; "<CC"; ""]%string.

Definition two_files_env : Env :=
  {| fs_open := fun p =>
       if String.eqb p "reads.txt" then Some (chars example_file)
       else if String.eqb p "longer.txt" then Some (chars longer_file)
       else None;
     new_char_ok := fun _ => true;
     new_int_ok := fun _ => true;
     line_stale := fun _ => [];
     heap_after := fun _ => "#"%char;
     read_timer_ms := 0;
     batch_timer_ms := fun _ _ => 1 |}.

(** The run of [example_env] on a machine where every batch takes less
    than a millisecond. *)
Definition fast_env : Env :=
  {| fs_open := fs_open example_env;
     new_char_ok := fun _ => true;
     new_int_ok := fun _ => true;
     line_stale := fun _ => [];
     heap_after := fun _ => NUL;
     read_timer_ms := 0;
     batch_timer_ms := fun _ _ => 0 |}.

(** The scenario of a file of four lines, AAAA twice and CCCC twice, read
    as two pairs of stride 4. *)
Definition scenario_file : string :=
  String.concat (String NEWLINE EmptyString)
    [">AAAA"; "<AAAA"; ">CCCC"; "<CCCC"; ""]%string.

Definition scenario_env : Env :=
  {| fs_open := fun p =>
       if String.eqb p "reads.txt" then Some (chars scenario_file) else None;
     new_char_ok := fun _ => true;
     new_int_ok := fun _ => true;
     line_stale := fun _ => [];
     heap_after := fun _ => NUL;
     read_timer_ms := 0;
     batch_timer_ms := fun _ _ => 1 |}.

(** * Properties *)

(** ** The model on small inputs *)

Example getlines_blank_line :
  getlines (chars (String.concat (String NEWLINE EmptyString)
                     ["a"; ""; "b"]%string))
  = [chars "a"; []; chars "b"].
Proof. reflexivity. Qed.

Example getlines_final_newline :
  getlines (chars scenario_file)
  = [chars ">AAAA"; chars "<AAAA"; chars ">CCCC"; chars "<CCCC"].
Proof. reflexivity. Qed.

Example atoi_values :
  (atoi " -12x", atoi "+7", atoi "abc", atoi "50000", atoi "2147483648")%string
  = (-12, 7, 0, 50000, -2147483648).
Proof. reflexivity. Qed.

Example strncpy_pads : strncpy_bytes (chars "AC" ++ [NUL]) 4 = chars "AC" ++ [NUL; NUL].
Proof. reflexivity. Qed.

Example strncpy_cuts : strncpy_bytes (chars "GATTACA" ++ [NUL]) 4 = chars "GATT".
Proof. reflexivity. Qed.

(** The scenario: the store holds the four sequences with their lengths,
    one batch is executed and [main] returns 0. *)
Example scenario_store :
  Sequences_new scenario_env "reads.txt" 4 2
  = Built
      {| seq_len := 4; num_alignments := 2;
         sequences_buffer := chars "AAAAAAAACCCCCCCC";
         sequences_len := [Some 4; Some 4; Some 4; Some 4] |}
      [OutSequencesInfo "reads.txt" 4 2; OutAllocating 0; OutRead 4 0].
Proof. vm_compute; reflexivity. Qed.

Example scenario_run :
  option_map (fun r => (fst r, firstn 5 (snd r)))
    (main scenario_env 1 ["nvbio-benchmark"; "reads.txt"; "4"; "2"; "2"]%string)
  = Some (Exit 0,
          [OutBatchSizeSet 2; OutSequencesInfo "reads.txt" 4 2;
           OutAllocating 0; OutRead 4 0; ErrBatchExecuted 0]).
Proof. vm_compute; reflexivity. Qed.

(** ** Machine integers *)

Lemma to_size_t_small z : 0 <= z < SIZE_MOD -> to_size_t z = z.
Proof. intros H; unfold to_size_t; apply Z.mod_small; exact H. Qed.

Lemma to_uint32_small z : 0 <= z < UINT32_MOD -> to_uint32 z = z.
Proof. intros H; unfold to_uint32; apply Z.mod_small; exact H. Qed.

Lemma to_int_small z : in_int z -> to_int z = z.
Proof.
  unfold in_int, INT_MIN, INT_MAX, to_int, UINT32_MOD; intros H.
  rewrite Z.mod_small; lia.
Qed.

Lemma to_size_t_range z : 0 <= to_size_t z < SIZE_MOD.
Proof. unfold to_size_t; apply Z.mod_pos_bound; reflexivity. Qed.

Lemma to_size_t_of_int z : 0 <= z <= INT_MAX -> to_size_t z = z.
Proof.
  intros H; apply to_size_t_small; unfold INT_MAX, SIZE_MOD in *; lia.
Qed.

(** ** C strings and [strncpy] *)

Lemma nzeros_length n : length (nzeros n) = n.
Proof. apply repeat_length. Qed.

Lemma nzeros_nth n j : nth j (nzeros n) NUL = NUL.
Proof.
  unfold nzeros; revert j; induction n as [|n IH]; intros [|j]; simpl; auto.
Qed.

Lemma nzeros_app a b : nzeros (a + b) = nzeros a ++ nzeros b.
Proof. apply repeat_app. Qed.

Lemma c_string_length_le mem : (length (c_string mem) <= length mem)%nat.
Proof.
  induction mem as [|c rest IH]; simpl; [lia|].
  destruct (Ascii.eqb c NUL); simpl; lia.
Qed.

Lemma c_string_terminated s : c_string (s ++ [NUL]) = c_string s.
Proof.
  induction s as [|c rest IH]; simpl; [reflexivity|].
  destruct (Ascii.eqb c NUL); [reflexivity | now rewrite IH].
Qed.

(** The C string at a pointer is a prefix of the memory there. *)
Lemma c_string_prefix mem : exists rest, mem = c_string mem ++ rest.
Proof.
  induction mem as [|c mem' [r IH]]; simpl.
  - now exists [].
  - destruct (Ascii.eqb c NUL).
    + now exists (c :: mem').
    + exists r; simpl; now rewrite <- IH.
Qed.

(** Without a NUL inside, the C string is all of the characters. *)
Lemma c_string_no_nul s : ~ In NUL s -> c_string s = s.
Proof.
  induction s as [|c rest IH]; simpl; intros H; [reflexivity|].
  destruct (Ascii.eqb_spec c NUL) as [E|_].
  - exfalso; apply H; now left.
  - rewrite IH; [reflexivity | intros Hin; apply H; now right].
Qed.

Lemma strncpy_bytes_length src n : length (strncpy_bytes src n) = n.
Proof.
  unfold strncpy_bytes; cbv zeta.
  rewrite length_app, nzeros_length.
  pose proof (firstn_le_length n (c_string src)); lia.
Qed.

(** [strncpy] pads: past the end of the source string the bytes are NUL. *)
Lemma strncpy_bytes_padding src n j :
  (length (c_string src) <= j)%nat -> nth j (strncpy_bytes src n) NUL = NUL.
Proof.
  unfold strncpy_bytes; cbv zeta; intros H.
  rewrite app_nth2.
  - apply nzeros_nth.
  - rewrite length_firstn; lia.
Qed.

(** [strncpy] copies: before the end of the source string, and before [n],
    the bytes are those of the source. *)
Lemma strncpy_bytes_copies src n j :
  (j < n)%nat -> (j < length (c_string src))%nat ->
  nth j (strncpy_bytes src n) NUL = nth j src NUL.
Proof.
  unfold strncpy_bytes; cbv zeta; intros Hn Hs.
  rewrite app_nth1 by (rewrite length_firstn; lia).
  rewrite nth_firstn.
  assert (E : (j <? n)%nat = true) by (apply Nat.ltb_lt; exact Hn).
  rewrite E.
  destruct (c_string_prefix src) as [r Hr].
  rewrite Hr at 2. now rewrite app_nth1.
Qed.

(** A source of at least [n] characters without NUL is cut at [n]. *)
Lemma strncpy_bytes_truncates src n :
  ~ In NUL src -> (n <= length src)%nat -> strncpy_bytes src n = firstn n src.
Proof.
  intros Hnul Hlen; unfold strncpy_bytes; cbv zeta.
  rewrite c_string_no_nul by exact Hnul.
  rewrite length_firstn.
  replace (n - Nat.min n (length src))%nat with 0%nat by lia.
  apply app_nil_r.
Qed.

(** The characters [strncpy] copies are the first ones of the memory at
    the source pointer. *)
Lemma c_string_firstn n mem :
  firstn n (c_string mem) = firstn (Nat.min n (length (c_string mem))) mem.
Proof.
  destruct (c_string_prefix mem) as [r Hr].
  set (cs := c_string mem) in *; clearbody cs; subst mem.
  rewrite firstn_app.
  replace (Nat.min n (length cs) - length cs)%nat with 0%nat by lia.
  rewrite firstn_O, app_nil_r.
  destruct (Nat.le_ge_cases n (length cs)) as [H|H].
  - now rewrite Nat.min_l by exact H.
  - rewrite Nat.min_r by exact H. now rewrite !firstn_all2 by lia.
Qed.

(** ** Writes into a buffer, and its slots *)

Section ListSplit.
Context {A : Type}.

Lemma firstn_exact (pre post : list A) : firstn (length pre) (pre ++ post) = pre.
Proof.
  rewrite firstn_app, Nat.sub_diag, firstn_all, firstn_O; apply app_nil_r.
Qed.

Lemma skipn_past (pre post : list A) k :
  skipn (length pre + k) (pre ++ post) = skipn k post.
Proof.
  rewrite skipn_app, skipn_all2 by lia.
  replace (length pre + k - length pre)%nat with k by lia.
  reflexivity.
Qed.

Lemma skipn_exact (pre post : list A) : skipn (length pre) (pre ++ post) = post.
Proof.
  rewrite <- (Nat.add_0_r (length pre)), skipn_past; reflexivity.
Qed.

End ListSplit.

Lemma write_at_middle pre old post bytes :
  length bytes = length old ->
  write_at (pre ++ old ++ post) (Z.of_nat (length pre)) bytes
  = Some (pre ++ bytes ++ post).
Proof.
  intros Hlen; unfold write_at.
  rewrite !length_app, Nat2Z.id.
  replace ((0 <=? Z.of_nat (length pre))
           && (Z.of_nat (length pre) + Z.of_nat (length bytes)
               <=? Z.of_nat (length pre + (length old + length post))))
    with true
    by (symmetry; apply andb_true_iff; split; apply Z.leb_le; lia).
  rewrite firstn_exact, skipn_past, Hlen, skipn_exact; reflexivity.
Qed.

Lemma store_int_middle pre old post v :
  store_int (pre ++ old :: post) (Z.of_nat (length pre)) v
  = Some (pre ++ Some v :: post).
Proof.
  unfold store_int.
  rewrite length_app, Nat2Z.id.
  replace ((0 <=? Z.of_nat (length pre))
           && (Z.of_nat (length pre) <? Z.of_nat (length pre + length (old :: post))))
    with true
    by (symmetry; apply andb_true_iff; split;
        [apply Z.leb_le | apply Z.ltb_lt]; simpl length; lia).
  rewrite firstn_exact.
  replace (S (length pre)) with (length pre + 1)%nat by lia.
  rewrite skipn_past; reflexivity.
Qed.

(** A buffer made of blocks of one size has these blocks as its slots. *)
Lemma concat_blocks_length (stride : nat) (blocks : list (list ascii)) :
  Forall (fun b => length b = stride) blocks ->
  length (concat blocks) = (length blocks * stride)%nat.
Proof.
  induction 1 as [|b bs Hb _ IH]; simpl; [reflexivity|].
  rewrite length_app, IH, Hb; reflexivity.
Qed.

Lemma slot_of_blocks (stride : nat) (blocks : list (list ascii)) rest i :
  Forall (fun b => length b = stride) blocks ->
  (i < length blocks)%nat ->
  slot (concat blocks ++ rest) stride i = nth i blocks [].
Proof.
  unfold slot; revert i.
  induction blocks as [|b bs IH]; intros i Hall Hi; simpl in Hi; [lia|].
  inversion Hall as [|? ? Hb Hbs]; subst.
  cbn [concat]; rewrite <- app_assoc.
  destruct i as [|i]; cbn [nth Nat.mul].
  - rewrite skipn_O; apply firstn_exact.
  - rewrite skipn_past; apply IH; [exact Hbs | lia].
Qed.

(** Past the blocks, the slots are those of what follows them. *)
Lemma slot_after_blocks (stride : nat) (blocks : list (list ascii)) rest i :
  Forall (fun b => length b = stride) blocks ->
  slot (concat blocks ++ rest) stride (length blocks + i) = slot rest stride i.
Proof.
  intros Hall; unfold slot.
  rewrite Nat.mul_add_distr_r, <- (concat_blocks_length stride) by exact Hall.
  now rewrite skipn_past.
Qed.

Lemma slot_nzeros (stride n i : nat) :
  (i < n)%nat -> slot (nzeros (n * stride)) stride i = nzeros stride.
Proof.
  intros Hi; unfold slot.
  replace (n * stride)%nat with (i * stride + (stride + (n - i - 1) * stride))%nat
    by nia.
  rewrite !nzeros_app.
  rewrite <- (nzeros_length (i * stride)) at 1.
  rewrite skipn_exact.
  rewrite <- (nzeros_length stride) at 1.
  apply firstn_exact.
Qed.

(** ** The read loop of the constructor *)

Lemma stored_slots_length env stride k lines :
  length (stored_slots env stride k lines) = length lines.
Proof.
  revert k; induction lines as [|l r IH]; intros k; simpl; [|rewrite IH];
    reflexivity.
Qed.

Lemma stored_slots_stride env stride k lines :
  Forall (fun b => length b = stride) (stored_slots env stride k lines).
Proof.
  revert k; induction lines as [|l r IH]; intros k; simpl; constructor.
  - apply strncpy_bytes_length.
  - apply IH.
Qed.

Lemma stored_slots_nth env stride k lines i :
  (i < length lines)%nat ->
  nth i (stored_slots env stride k lines) []
  = strncpy_bytes (c_str_plus_1 (nth i lines [])
                     (line_stale env (k + Z.of_nat i))) stride.
Proof.
  revert k i; induction lines as [|l r IH]; intros k i Hi; simpl in Hi; [lia|].
  destruct i as [|i].
  - simpl; now rewrite Z.add_0_r.
  - cbn [stored_slots nth]; rewrite IH by lia.
    do 3 f_equal; lia.
Qed.

(** The loop in closed form.  It starts at sequence number [k] with [m]
    slots still free and zero; it fills the next [min m (length lines)]
    of them, one per line, and leaves everything else as it was. *)
Lemma read_sequences_closed env (stride : nat) limit :
  Z.of_nat stride * limit < SIZE_MOD -> limit < SIZE_MOD ->
  forall lines (k m : nat) pre prelens this,
  seq_len this = Z.of_nat stride ->
  sequences_buffer this = pre ++ nzeros (m * stride) ->
  sequences_len this = prelens ++ repeat None m ->
  length pre = (k * stride)%nat -> length prelens = k ->
  limit = Z.of_nat (k + m) ->
  let n := Nat.min m (length lines) in
  read_sequences env this limit lines (Z.of_nat k)
  = Some (Z.of_nat (k + n),
          {| seq_len := seq_len this;
             num_alignments := num_alignments this;
             sequences_buffer :=
               pre ++ concat (stored_slots env stride (Z.of_nat k) (firstn m lines))
                   ++ nzeros ((m - n) * stride);
             sequences_len :=
               prelens ++ map stored_len (firstn m lines)
                       ++ repeat None (m - n) |}).
Proof.
  intros Hfit Hlim lines.
  induction lines as [|line rest IH];
    intros k m pre prelens this Hlen Hbuf Hlens Hpre Hprelens Hk n; subst n.
  - rewrite firstn_nil, Nat.min_0_r, Nat.sub_0_r, Nat.add_0_r; simpl.
    destruct this; simpl in *; subst; reflexivity.
  - cbn [read_sequences].
    destruct (Z.ltb_spec (Z.of_nat k) limit) as [Hlt|Hge].
    + destruct m as [|m']; [lia|].
      assert (Hoff : get_sequence this (Z.of_nat k) = Z.of_nat (length pre)).
      { unfold get_sequence; rewrite Hlen, Hpre, to_size_t_small; nia. }
      rewrite Hoff, Hbuf, Hlens, Hlen, Nat2Z.id.
      replace (S m' * stride)%nat with (stride + m' * stride)%nat by lia.
      rewrite nzeros_app.
      rewrite write_at_middle
        by (now rewrite strncpy_bytes_length, nzeros_length).
      cbn [repeat]; rewrite <- Hprelens at 1; rewrite store_int_middle.
      replace (to_size_t (Z.of_nat k + 1)) with (Z.of_nat (S k))
        by (rewrite to_size_t_small; lia).
      set (bytes := strncpy_bytes _ stride).
      rewrite (IH (S k) m' (pre ++ bytes) (prelens ++ [stored_len line]));
        cbn [seq_len num_alignments sequences_buffer sequences_len].
      * cbn [firstn length Nat.min stored_slots concat map].
        replace (Z.of_nat k + 1) with (Z.of_nat (S k)) by lia.
        replace (S k + Nat.min m' (length rest))%nat
          with (k + S (Nat.min m' (length rest)))%nat by lia.
        replace (S m' - S (Nat.min m' (length rest)))%nat
          with (m' - Nat.min m' (length rest))%nat by lia.
        subst bytes; rewrite <- !app_assoc; reflexivity.
      * reflexivity.
      * now rewrite <- app_assoc.
      * now rewrite <- app_assoc.
      * rewrite length_app; subst bytes; rewrite strncpy_bytes_length; lia.
      * rewrite length_app; simpl; lia.
      * lia.
    + assert (m = 0%nat) by lia; subst m.
      rewrite Nat.add_0_r; simpl.
      destruct this; simpl in *; subst; reflexivity.
Qed.

(** ** The constructed store *)

Section Constructor.

Variable env : Env.
Variable filepath : string.
Variables stride pairs : Z.
Variable content : list ascii.

(** The two [int] arguments are not negative and [pairs * 2] is an [int];
    both allocations succeed and the file opens. *)
Hypothesis stride_range : 0 <= stride <= INT_MAX.
Hypothesis pairs_range : 0 <= pairs /\ pairs * 2 <= INT_MAX.
Hypothesis buffer_allocated : new_char_ok env (pairs * stride * 2) = true.
Hypothesis lengths_allocated : new_int_ok env (pairs * 2) = true.
Hypothesis file_opened : fs_open env filepath = Some content.

(** The number of slots, and of them the number the loop fills. *)
Let slots : nat := Z.to_nat (pairs * 2).
Let filled : nat := Nat.min slots (length (getlines content)).
Let store : Sequences := built_store env stride pairs content.

Lemma Sequences_new_built :
  Sequences_new env filepath stride pairs
  = Built store
      [OutSequencesInfo filepath stride pairs;
       OutAllocating (pairs * stride * 2 / 2 ^ 20);
       OutRead (Z.of_nat filled) (read_timer_ms env)].
Proof.
  unfold Sequences_new; cbv zeta.
  assert (Hint : INT_MAX = 2147483647) by reflexivity.
  assert (Hmod : SIZE_MOD = 18446744073709551616) by reflexivity.
  rewrite (to_size_t_of_int pairs), (to_size_t_of_int stride) by lia.
  rewrite (to_size_t_small (pairs * stride)) by nia.
  rewrite (to_size_t_small (pairs * stride * 2)) by nia.
  rewrite (to_size_t_small (pairs * 2)) by lia.
  rewrite buffer_allocated, lengths_allocated, file_opened; cbn [negb].
  rewrite to_int_small by (unfold in_int, INT_MIN; lia).
  rewrite (to_size_t_small (pairs * 2)) by lia.
  pose proof (read_sequences_closed env (Z.to_nat stride) (pairs * 2)) as H.
  rewrite Z2Nat.id in H by lia.
  specialize (H ltac:(nia) ltac:(lia) (getlines content) 0%nat slots [] []).
  cbn [Z.of_nat] in H.
  rewrite H; cbn [seq_len num_alignments sequences_buffer sequences_len app].
  - reflexivity.
  - reflexivity.
  - f_equal; subst slots.
    rewrite <- Z2Nat.inj_mul by lia; f_equal; lia.
  - reflexivity.
  - reflexivity.
  - reflexivity.
  - subst slots; rewrite Nat.add_0_l, Z2Nat.id; lia.
Qed.

(** The slot of a line the loop handled holds what [strncpy] wrote for it. *)
Lemma built_slot i :
  (i < filled)%nat ->
  slot (sequences_buffer store) (Z.to_nat stride) i
  = strncpy_bytes (c_str_plus_1 (nth i (getlines content) [])
                     (line_stale env (Z.of_nat i))) (Z.to_nat stride).
Proof.
  intros Hi; subst store; unfold built_store; cbn [sequences_buffer];
    fold slots; fold filled.
  assert (Hlen : length (firstn slots (getlines content)) = filled)
    by apply length_firstn.
  rewrite slot_of_blocks.
  - rewrite stored_slots_nth by lia.
    rewrite nth_firstn.
    assert (E : (i <? slots)%nat = true) by (apply Nat.ltb_lt; subst filled; lia).
    now rewrite E, Z.add_0_l.
  - apply stored_slots_stride.
  - rewrite stored_slots_length; lia.
Qed.

(** The slots no line was read for are still zero. *)
Lemma built_slot_unread i :
  (filled <= i < slots)%nat ->
  slot (sequences_buffer store) (Z.to_nat stride) i
  = nzeros (Z.to_nat stride).
Proof.
  intros Hi; subst store; unfold built_store; cbn [sequences_buffer];
    fold slots; fold filled.
  assert (Hlen : length (stored_slots env (Z.to_nat stride) 0
                           (firstn slots (getlines content))) = filled)
    by (rewrite stored_slots_length; apply length_firstn).
  assert (E : i = (length (stored_slots env (Z.to_nat stride) 0
                             (firstn slots (getlines content)))
                   + (i - filled))%nat) by lia.
  rewrite E, slot_after_blocks by apply stored_slots_stride.
  apply slot_nzeros; lia.
Qed.

(** The length recorded for a line the loop handled. *)
Lemma built_len i :
  (i < filled)%nat ->
  nth i (sequences_len store) None
  = stored_len (nth i (getlines content) []).
Proof.
  intros Hi; subst store; unfold built_store; cbn [sequences_len];
    fold slots; fold filled.
  assert (Hlen : length (firstn slots (getlines content)) = filled)
    by apply length_firstn.
  rewrite app_nth1 by (rewrite length_map; lia).
  rewrite (nth_indep _ None (stored_len [])) by (rewrite length_map; lia).
  rewrite map_nth, nth_firstn.
  assert (E : (i <? slots)%nat = true) by (apply Nat.ltb_lt; subst filled; lia).
  now rewrite E.
Qed.

End Constructor.

(** For the line that [std::getline] delivers as number [i], [i] below twice
    the number of pairs: the store the constructor builds, the bytes of
    slot [i] and the length recorded at [i]. *)
Lemma constructed_line env filepath stride pairs content i line :
  constructible env filepath stride pairs content ->
  nth_error (getlines content) i = Some line ->
  Z.of_nat i < pairs * 2 ->
  exists this out,
    Sequences_new env filepath stride pairs = Built this out /\
    seq_len this = stride /\
    slot (sequences_buffer this) (Z.to_nat stride) i
    = strncpy_bytes (c_str_plus_1 line (line_stale env (Z.of_nat i)))
        (Z.to_nat stride) /\
    nth i (sequences_len this) None = stored_len line.
Proof.
  intros (Hs & Hp & Hc & Hi & Hf) Hline Hlt.
  assert (Hlen : (i < length (getlines content))%nat)
    by (apply nth_error_Some; congruence).
  assert (Hnth : nth i (getlines content) [] = line)
    by (apply nth_error_nth; exact Hline).
  assert (Hfilled : (i < Nat.min (Z.to_nat (pairs * 2))
                            (length (getlines content)))%nat) by lia.
  exists (built_store env stride pairs content); eexists; split;
    [apply Sequences_new_built; assumption|].
  split; [reflexivity|]; split.
  - rewrite built_slot by exact Hfilled; now rewrite Hnth.
  - rewrite built_len by exact Hfilled; now rewrite Hnth.
Qed.

Lemma example_constructible :
  constructible example_env "reads.txt" 4 2 (chars example_file).
Proof. unfold constructible; repeat split; vm_compute; congruence. Qed.

(** ** Padding and truncation of the stored sequences *)

(** C6, as stated, fails on an empty line: the store is built, its second
    sequence comes from an empty line, and its slot is not zero from the
    sequence's length on (it holds ACGT, read from behind the terminator
    of the empty string). *)
Lemma zero_padding_fails_on_empty_line :
  exists this out,
    Sequences_new blank_line_env "reads.txt" 4 1 = Built this out /\
    nth_error (getlines (chars blank_line_file)) 1 = Some [] /\
    ~ zero_padded this 1 (Z.of_nat (length (@nil ascii)) - 1).
Proof.
  eexists; eexists; split; [vm_compute; reflexivity|].
  split; [reflexivity|].
  intros H. specialize (H 0%nat ltac:(simpl; lia) ltac:(simpl; lia)).
  vm_compute in H. discriminate H.
Qed.

(** C6, amended: for every sequence stored from a line that has its marker
    character, the slot has [stride] bytes, all bytes at offsets at or
    beyond the sequence's true length are zero, and the slot holds at most
    [stride] characters of the line: a prefix of the sequence followed by
    zeros, which for a sequence without NUL is the whole sequence when it is
    shorter than the stride and its first [stride] characters otherwise. *)
Theorem stored_sequence_padded_and_truncated
    env filepath stride pairs content i marker body :
  constructible env filepath stride pairs content ->
  nth_error (getlines content) i = Some (marker :: body) ->
  Z.of_nat i < pairs * 2 ->
  exists this out,
    Sequences_new env filepath stride pairs = Built this out /\
    seq_len this = stride /\
    let n := Z.to_nat stride in
    let stored := slot (sequences_buffer this) n i in
    length stored = n /\
    zero_padded this i (Z.of_nat (length body)) /\
    (exists c, (c <= n)%nat /\ (c <= length body)%nat /\
               stored = firstn c body ++ nzeros (n - c)) /\
    (~ In NUL body -> stored = firstn n body ++ nzeros (n - length body)).
Proof.
  intros Hc Hline Hi.
  destruct (constructed_line _ _ _ _ _ _ _ Hc Hline Hi)
    as (this & out & Hnew & Hstride & Hslot & _).
  exists this, out; split; [exact Hnew|]; split; [exact Hstride|].
  cbv zeta; unfold zero_padded; rewrite Hstride, Hslot; cbn [c_str_plus_1].
  split; [apply strncpy_bytes_length|]; split; [|split].
  - intros j Hj _; apply strncpy_bytes_padding.
    rewrite c_string_terminated.
    pose proof (c_string_length_le body); lia.
  - unfold strncpy_bytes; cbv zeta; rewrite c_string_terminated.
    pose proof (c_string_length_le body) as Hle.
    exists (Nat.min (Z.to_nat stride) (length (c_string body))).
    split; [lia|]; split; [lia|].
    now rewrite length_firstn, c_string_firstn.
  - intros Hnul; unfold strncpy_bytes; cbv zeta.
    rewrite c_string_terminated, c_string_no_nul by exact Hnul.
    rewrite length_firstn; f_equal; f_equal; lia.
Qed.

Lemma stored_sequence_padded_and_truncated_witness :
  exists this out,
    Sequences_new example_env "reads.txt" 4 2 = Built this out /\
    seq_len this = 4 /\
    let n := Z.to_nat 4 in
    let stored := slot (sequences_buffer this) n 1 in
    length stored = n /\
    zero_padded this 1 (Z.of_nat (length (chars "AC"))) /\
    (exists c, (c <= n)%nat /\ (c <= length (chars "AC"))%nat /\
               stored = firstn c (chars "AC") ++ nzeros (n - c)) /\
    (~ In NUL (chars "AC")
     -> stored = firstn n (chars "AC") ++ nzeros (n - length (chars "AC"))).
Proof.
  apply (stored_sequence_padded_and_truncated example_env "reads.txt" 4 2
           (chars example_file) 1 "<"%char (chars "AC")).
  - exact example_constructible.
  - reflexivity.
  - lia.
Defined.

(** ** The recorded lengths *)

(** C7: for every line read into the store (of at most 2^31 characters, so
    that its length minus 1 is an [int]), the recorded length is the line's
    length minus 1, whatever the stride: for a line of more than
    [stride + 1] characters it exceeds the stride. *)
Theorem recorded_length_not_clamped
    env filepath stride pairs content i line :
  constructible env filepath stride pairs content ->
  nth_error (getlines content) i = Some line ->
  Z.of_nat i < pairs * 2 ->
  Z.of_nat (length line) <= 2 ^ 31 ->
  exists this out recorded,
    Sequences_new env filepath stride pairs = Built this out /\
    nth i (sequences_len this) None = Some recorded /\
    recorded = Z.of_nat (length line) - 1 /\
    (seq_len this + 1 < Z.of_nat (length line) -> seq_len this < recorded).
Proof.
  intros Hc Hline Hi Hlen.
  destruct (constructed_line _ _ _ _ _ _ _ Hc Hline Hi)
    as (this & out & Hnew & Hstride & _ & Hrec).
  exists this, out, (Z.of_nat (length line) - 1).
  split; [exact Hnew|]; split; [|split; [reflexivity | lia]].
  rewrite Hrec; unfold stored_len; f_equal.
  destruct (length line) as [|n] eqn:E.
  - reflexivity.
  - rewrite to_size_t_small, to_int_small;
      unfold in_int, INT_MIN, INT_MAX, SIZE_MOD in *; lia.
Qed.

Lemma recorded_length_not_clamped_witness :
  exists this out recorded,
    Sequences_new example_env "reads.txt" 4 2 = Built this out /\
    nth 2 (sequences_len this) None = Some recorded /\
    recorded = Z.of_nat (length (chars ">GATTACA")) - 1 /\
    (seq_len this + 1 < Z.of_nat (length (chars ">GATTACA"))
     -> seq_len this < recorded).
Proof.
  apply (recorded_length_not_clamped example_env "reads.txt" 4 2
           (chars example_file) 2 (chars ">GATTACA")).
  - exact example_constructible.
  - reflexivity.
  - lia.
  - vm_compute; discriminate.
Defined.

(** C9, as stated, fails: the empty second line is recorded with length -1,
    but its slot does not stay zero. *)
Lemma empty_line_slot_not_zero :
  exists this out,
    Sequences_new blank_line_env "reads.txt" 4 1 = Built this out /\
    nth_error (getlines (chars blank_line_file)) 1 = Some [] /\
    nth 1 (sequences_len this) None = Some (-1) /\
    slot (sequences_buffer this) 4 1 = chars "ACGT" /\
    slot (sequences_buffer this) 4 1 <> nzeros 4.
Proof.
  eexists; eexists; split; [vm_compute; reflexivity|].
  repeat split; try reflexivity.
  vm_compute; discriminate.
Qed.

(** C9, amended: for every empty line read into the store, the recorded
    length is -1: [line.length() - 1] wraps around in [size_t] and is
    stored into the [int] array as -1. *)
Theorem empty_line_recorded_as_minus_1
    env filepath stride pairs content i :
  constructible env filepath stride pairs content ->
  nth_error (getlines content) i = Some [] ->
  Z.of_nat i < pairs * 2 ->
  exists this out,
    Sequences_new env filepath stride pairs = Built this out /\
    to_size_t (Z.of_nat (length (@nil ascii)) - 1) = SIZE_MOD - 1 /\
    nth i (sequences_len this) None = Some (-1).
Proof.
  intros Hc Hline Hi.
  destruct (constructed_line _ _ _ _ _ _ _ Hc Hline Hi)
    as (this & out & Hnew & _ & _ & Hrec).
  exists this, out; split; [exact Hnew|]; split; [reflexivity|].
  rewrite Hrec; reflexivity.
Qed.

Lemma empty_line_recorded_as_minus_1_witness :
  exists this out,
    Sequences_new blank_line_env "reads.txt" 4 1 = Built this out /\
    to_size_t (Z.of_nat (length (@nil ascii)) - 1) = SIZE_MOD - 1 /\
    nth 1 (sequences_len this) None = Some (-1).
Proof.
  apply (empty_line_recorded_as_minus_1 blank_line_env "reads.txt" 4 1
           (chars blank_line_file) 1).
  - unfold constructible; repeat split; vm_compute; congruence.
  - reflexivity.
  - lia.
Defined.

(** ** The loop of the driver *)

Lemma batch_windows_length b t k o : length (batch_windows b t k o) = k.
Proof. revert o; induction k as [|k IH]; intros o; simpl; [|rewrite IH]; reflexivity. Qed.

Lemma batch_windows_nth b t k o j :
  (j < k)%nat ->
  nth j (batch_windows b t k o) (0, 0)
  = (o + Z.of_nat j * b, Z.min b (t - (o + Z.of_nat j * b))).
Proof.
  revert o j; induction k as [|k IH]; intros o j Hj; [lia|].
  destruct j as [|j]; cbn [batch_windows nth].
  - now rewrite Z.add_0_r.
  - rewrite IH by lia.
    replace (o + b + Z.of_nat j * b) with (o + Z.of_nat (S j) * b) by lia.
    reflexivity.
Qed.

Lemma batch_messages_length k c : length (batch_messages k c) = k.
Proof. revert c; induction k as [|k IH]; intros c; simpl; [|rewrite IH]; reflexivity. Qed.

(** [ceil_div] is the least number of windows that covers [total]. *)
Lemma ceil_div_bounds t b :
  0 <= t -> 0 < b ->
  0 <= ceil_div t b /\ (ceil_div t b - 1) * b < t <= ceil_div t b * b.
Proof.
  intros Ht Hb; unfold ceil_div.
  pose proof (Z.div_mod (t + b - 1) b ltac:(lia)) as E.
  pose proof (Z.mod_pos_bound (t + b - 1) b Hb) as R.
  assert (0 <= (t + b - 1) / b) by (apply Z.div_pos; lia).
  nia.
Qed.

(** [k] passes of the loop: when the counter is [k] windows short of the
    total and nothing wraps around, the loop makes exactly [k] passes (it
    ends with any fuel of at least [k], and is still running on less). *)
Lemma driver_loop_runs env sequences batch_size total :
  0 < batch_size -> 0 <= total <= INT_MAX ->
  forall (k : nat) (d : Driver),
  0 <= alignments_computed d ->
  (Z.of_nat k - 1) * batch_size + alignments_computed d < total
    \/ (k = 0%nat /\ total <= alignments_computed d) ->
  total <= alignments_computed d + Z.of_nat k * batch_size < SIZE_MOD ->
  0 <= cnt d /\ cnt d + Z.of_nat k <= INT_MAX ->
  exists d',
    (forall fuel, (k <= fuel)%nat ->
       driver_loop env sequences batch_size total fuel d = Some d') /\
    (forall fuel, (fuel < k)%nat ->
       driver_loop env sequences batch_size total fuel d = None) /\
    alignments_computed d' = alignments_computed d + Z.of_nat k * batch_size /\
    cnt d' = cnt d + Z.of_nat k /\
    calls d' = calls d ++ batch_windows batch_size total k (alignments_computed d) /\
    printed d' = printed d ++ batch_messages k (cnt d).
Proof.
  intros Hb Ht k.
  assert (HT : to_size_t total = total) by (apply to_size_t_of_int; exact Ht).
  assert (Hmax : INT_MAX = 2147483647) by reflexivity.
  induction k as [|k IH]; intros d Hac Hlow Hhigh Hcnt.
  - exists d; repeat split.
    + intros fuel _; destruct fuel; cbn [driver_loop]; rewrite HT;
        destruct (Z.ltb_spec (alignments_computed d) total); (lia || reflexivity).
    + intros fuel Hf; lia.
    + lia.
    + lia.
    + cbn [batch_windows]; now rewrite app_nil_r.
    + cbn [batch_messages]; now rewrite app_nil_r.
  - assert (Hlt : alignments_computed d < total) by nia.
    set (d1 := driver_step env sequences batch_size total d).
    assert (Hac1 : alignments_computed d1 = alignments_computed d + batch_size).
    { subst d1; cbn [driver_step alignments_computed].
      apply to_size_t_small; nia. }
    assert (Hcnt1 : cnt d1 = cnt d + 1).
    { subst d1; cbn [driver_step cnt].
      apply to_int_small; unfold in_int, INT_MIN; lia. }
    assert (Hcalls1 : calls d1
              = calls d ++ [(alignments_computed d,
                             Z.min batch_size (total - alignments_computed d))]).
    { subst d1; cbn [driver_step calls]; rewrite HT.
      rewrite (to_size_t_small (total - _)) by (unfold SIZE_MOD; lia).
      rewrite to_uint32_small; [reflexivity|unfold UINT32_MOD; lia]. }
    assert (Hprinted1 : printed d1 = printed d ++ [ErrBatchExecuted (cnt d)])
      by reflexivity.
    destruct (IH d1) as (d' & Hrun & Hstuck & Hfin & Hc & Hcalls & Hpr).
    + lia.
    + destruct k as [|k']; [right; split; [reflexivity|nia] | left; nia].
    + nia.
    + lia.
    + exists d'; repeat split.
      * intros [|fuel] Hf; [lia|].
        cbn [driver_loop]; rewrite HT.
        destruct (Z.ltb_spec (alignments_computed d) total); [|lia].
        apply Hrun; lia.
      * intros [|fuel] Hf; cbn [driver_loop]; rewrite HT;
          destruct (Z.ltb_spec (alignments_computed d) total); try lia;
          [reflexivity | apply Hstuck; lia].
      * rewrite Hfin, Hac1; lia.
      * rewrite Hc, Hcnt1; lia.
      * rewrite Hcalls, Hcalls1, Hac1, <- app_assoc; reflexivity.
      * rewrite Hpr, Hprinted1, Hcnt1, <- app_assoc; reflexivity.
Qed.

(** The whole loop, from the initial state. *)
Lemma driver_loop_from_init env sequences batch_size total :
  1 <= batch_size < SIZE_MOD -> 0 <= total <= INT_MAX ->
  let k := Z.to_nat (ceil_div total batch_size) in
  exists d,
    (forall fuel, (k <= fuel)%nat ->
       driver_loop env sequences batch_size total fuel driver_init = Some d) /\
    (forall fuel, (fuel < k)%nat ->
       driver_loop env sequences batch_size total fuel driver_init = None) /\
    alignments_computed d = ceil_div total batch_size * batch_size /\
    cnt d = ceil_div total batch_size /\
    calls d = batch_windows batch_size total k 0 /\
    printed d = batch_messages k 0.
Proof.
  intros Hb Ht k.
  destruct (ceil_div_bounds total batch_size) as (Hk0 & Hk1 & Hk2); [lia|lia|].
  assert (Hk : Z.of_nat k = ceil_div total batch_size)
    by (subst k; apply Z2Nat.id; exact Hk0).
  assert (Hmax : INT_MAX = 2147483647) by reflexivity.
  assert (Hmod : SIZE_MOD = 18446744073709551616) by reflexivity.
  assert (Hsmall : ceil_div total batch_size * batch_size < SIZE_MOD).
  { destruct (Z.le_gt_cases total batch_size) as [Hle|Hgt]; [|nia].
    assert (ceil_div total batch_size <= 1) by nia. nia. }
  assert (Hcount : ceil_div total batch_size <= total) by nia.
  destruct (driver_loop_runs env sequences batch_size total ltac:(lia) Ht
              k driver_init) as (d & Hrun & Hstuck & Hac & Hc & Hcalls & Hpr);
    cbn [driver_init alignments_computed cnt calls printed] in *.
  - lia.
  - destruct k as [|k']; [right; split; [reflexivity|lia] | left; lia].
  - lia.
  - lia.
  - exists d; repeat split; try assumption; lia.
Qed.

(** A final window that does not fill a batch holds [total mod batch_size]
    pairs. *)
Lemma last_window_size t b :
  1 <= b <= t ->
  Z.min b (t - (ceil_div t b - 1) * b) = if t mod b =? 0 then b else t mod b.
Proof.
  intros H.
  destruct (ceil_div_bounds t b) as (Hk0 & Hk1 & Hk2); [lia|lia|].
  set (k := ceil_div t b) in *.
  set (r := t - (k - 1) * b).
  assert (Hr : 0 < r <= b) by (subst r; lia).
  assert (E : t mod b = r mod b).
  { replace t with (r + (k - 1) * b) by (subst r; lia).
    apply Z.mod_add; lia. }
  rewrite E.
  destruct (Z.eq_dec r b) as [->|Hne].
  - rewrite Z.mod_same by lia; cbn; lia.
  - rewrite Z.mod_small by lia.
    destruct (Z.eqb_spec r 0); lia.
Qed.

(** C3: for 1 <= B <= T, the loop ends (with any fuel of at least
    ceil(T/B)), having called [batch_alignment_test] exactly ceil(T/B)
    times; call number [j] is made at offset [j*B] with a window of
    [min(B, T - j*B)] pairs, and the last window has [T mod B] pairs when
    [B] does not divide [T] and [B] pairs when it does. *)
Theorem driver_batch_windows env sequences T B :
  1 <= T <= INT_MAX -> 1 <= B <= T ->
  exists d,
    (forall fuel, (Z.to_nat (ceil_div T B) <= fuel)%nat ->
       driver_loop env sequences B T fuel driver_init = Some d) /\
    Z.of_nat (length (calls d)) = ceil_div T B /\
    (forall j, (j < length (calls d))%nat ->
       nth j (calls d) (0, 0)
       = (Z.of_nat j * B, Z.min B (T - Z.of_nat j * B))) /\
    snd (nth (length (calls d) - 1) (calls d) (0, 0))
    = (if T mod B =? 0 then B else T mod B).
Proof.
  intros HT HB.
  assert (Hmax : INT_MAX = 2147483647) by reflexivity.
  assert (Hmod : SIZE_MOD = 18446744073709551616) by reflexivity.
  destruct (driver_loop_from_init env sequences B T)
    as (d & Hrun & _ & _ & _ & Hcalls & _); [lia|lia|].
  destruct (ceil_div_bounds T B) as (Hk0 & Hk1 & Hk2); [lia|lia|].
  assert (Hlen : length (calls d) = Z.to_nat (ceil_div T B))
    by (rewrite Hcalls; apply batch_windows_length).
  exists d; split; [exact Hrun|]; split; [|split].
  - rewrite Hlen; apply Z2Nat.id; exact Hk0.
  - intros j Hj. rewrite Hcalls, batch_windows_nth by lia. reflexivity.
  - rewrite Hcalls at 2. rewrite batch_windows_nth by nia.
    cbn [snd]. rewrite Hlen, Z.add_0_l.
    replace (Z.of_nat (Z.to_nat (ceil_div T B) - 1)) with (ceil_div T B - 1) by nia.
    apply last_window_size; exact HB.
Qed.

Lemma driver_batch_windows_witness :
  exists d,
    (forall fuel, (Z.to_nat (ceil_div 5 2) <= fuel)%nat ->
       driver_loop example_env
         (built_store example_env 4 2 (chars example_file)) 2 5 fuel driver_init
       = Some d) /\
    Z.of_nat (length (calls d)) = ceil_div 5 2 /\
    (forall j, (j < length (calls d))%nat ->
       nth j (calls d) (0, 0) = (Z.of_nat j * 2, Z.min 2 (5 - Z.of_nat j * 2))) /\
    snd (nth (length (calls d) - 1) (calls d) (0, 0))
    = (if 5 mod 2 =? 0 then 2 else 5 mod 2).
Proof.
  apply (driver_batch_windows example_env
           (built_store example_env 4 2 (chars example_file)) 5 2);
    unfold INT_MAX; lia.
Defined.

(** C2, on the code: with 3 pairs and batches of 2 the loop makes two
    calls, of 2 pairs and of 1 pair, and leaves [alignments_computed] at 4:
    each pass adds [batch_size], not the size of the window it ran. *)
Theorem processed_count_overshoots env sequences :
  exists d,
    driver_loop env sequences 2 3 2 driver_init = Some d /\
    calls d = [(0, 2); (2, 1)] /\
    alignments_computed d = 4.
Proof.
  destruct (driver_loop_from_init env sequences 2 3)
    as (d & Hrun & _ & Hac & _ & Hcalls & _);
    [unfold SIZE_MOD; lia | unfold INT_MAX; lia |].
  exists d; split; [apply Hrun; vm_compute; lia|].
  split; [exact Hcalls | exact Hac].
Qed.

(** C4: when the batch size given on the command line exceeds the number of
    pairs (at least 1), the batch size the loop runs with is the number of
    pairs, the message that says so goes to the error stream, and the loop
    makes exactly one call, for all the pairs. *)
Theorem batch_size_clamped env sequences T B_cli :
  1 <= T <= INT_MAX -> in_int B_cli -> T < B_cli ->
  exists d,
    clamp_batch_size (to_size_t B_cli) T = (T, ErrBatchSizeChanged T) /\
    on_stderr (snd (clamp_batch_size (to_size_t B_cli) T)) = true /\
    (forall fuel, (1 <= fuel)%nat ->
       driver_loop env sequences (fst (clamp_batch_size (to_size_t B_cli) T)) T
         fuel driver_init = Some d) /\
    driver_loop env sequences (fst (clamp_batch_size (to_size_t B_cli) T)) T
      0 driver_init = None /\
    calls d = [(0, T)] /\
    printed d = [ErrBatchExecuted 0].
Proof.
  intros HT HB Hgt.
  assert (Hmax : INT_MAX = 2147483647) by reflexivity.
  assert (Hmod : SIZE_MOD = 18446744073709551616) by reflexivity.
  assert (Hclamp : clamp_batch_size (to_size_t B_cli) T
                   = (T, ErrBatchSizeChanged T)).
  { unfold clamp_batch_size, in_int in *.
    rewrite (to_size_t_of_int T), (to_size_t_of_int B_cli) by lia.
    destruct (Z.gtb_spec B_cli T); [reflexivity | lia]. }
  assert (Hone : ceil_div T T = 1).
  { unfold ceil_div. replace (T + T - 1) with (1 * T + (T - 1)) by lia.
    rewrite Z.div_add_l, Z.div_small; lia. }
  destruct (driver_loop_from_init env sequences T T)
    as (d & Hrun & Hstuck & _ & _ & Hcalls & Hpr); [lia|lia|].
  rewrite Hone in *.
  exists d; rewrite Hclamp; cbn [fst snd on_stderr].
  repeat split.
  - intros fuel Hf; apply Hrun; exact Hf.
  - apply Hstuck; cbn; lia.
  - rewrite Hcalls; change (Z.to_nat 1) with 1%nat; cbn [batch_windows].
    rewrite Z.sub_0_r, Z.min_id; reflexivity.
  - exact Hpr.
Qed.

Lemma batch_size_clamped_witness :
  exists d,
    clamp_batch_size (to_size_t 50000) 2 = (2, ErrBatchSizeChanged 2) /\
    on_stderr (snd (clamp_batch_size (to_size_t 50000) 2)) = true /\
    (forall fuel, (1 <= fuel)%nat ->
       driver_loop example_env
         (built_store example_env 4 2 (chars example_file))
         (fst (clamp_batch_size (to_size_t 50000) 2)) 2 fuel driver_init
       = Some d) /\
    driver_loop example_env
      (built_store example_env 4 2 (chars example_file))
      (fst (clamp_batch_size (to_size_t 50000) 2)) 2 0 driver_init = None /\
    calls d = [(0, 2)] /\
    printed d = [ErrBatchExecuted 0].
Proof.
  apply (batch_size_clamped example_env
           (built_store example_env 4 2 (chars example_file)) 2 50000);
    unfold in_int, INT_MIN, INT_MAX; lia.
Defined.

(** With a batch size of 0 the body leaves the loop variable where it
    was. *)
Lemma driver_step_zero env sequences total d :
  0 <= alignments_computed d < SIZE_MOD ->
  alignments_computed (driver_step env sequences 0 total d)
  = alignments_computed d.
Proof.
  intros H; cbn [driver_step alignments_computed].
  rewrite Z.add_0_r; apply to_size_t_small; exact H.
Qed.

Lemma driver_loop_zero_runs_on env sequences total fuel :
  0 < total <= INT_MAX ->
  forall d, alignments_computed d = 0 ->
  driver_loop env sequences 0 total fuel d = None.
Proof.
  intros Ht; induction fuel as [|fuel IH]; intros d Hd;
    cbn [driver_loop]; rewrite to_size_t_of_int by lia;
    destruct (Z.ltb_spec (alignments_computed d) total); try lia.
  - reflexivity.
  - apply IH. rewrite driver_step_zero; [exact Hd | unfold SIZE_MOD; lia].
Qed.

(** C10: for a number of pairs that is not negative and a batch size of at
    least 1, the loop ends after exactly ceil(num_alignments/batch_size)
    passes: it returns with any fuel of at least that number and is still
    running on less.  A batch size of at least 1 is needed: with batch size
    0 and a positive number of pairs the body does not advance the loop
    variable and the loop never ends. *)
Theorem driver_loop_terminates env sequences T B :
  0 <= T <= INT_MAX -> 1 <= B < SIZE_MOD ->
  (exists d,
     (forall fuel, (Z.to_nat (ceil_div T B) <= fuel)%nat ->
        driver_loop env sequences B T fuel driver_init = Some d) /\
     (forall fuel, (fuel < Z.to_nat (ceil_div T B))%nat ->
        driver_loop env sequences B T fuel driver_init = None) /\
     cnt d = ceil_div T B /\
     Z.of_nat (length (calls d)) = ceil_div T B) /\
  (0 < T ->
     alignments_computed (driver_step env sequences 0 T driver_init)
     = alignments_computed driver_init /\
     forall fuel, driver_loop env sequences 0 T fuel driver_init = None).
Proof.
  intros HT HB; split.
  - destruct (driver_loop_from_init env sequences B T HB HT)
      as (d & Hrun & Hstuck & _ & Hcnt & Hcalls & _).
    destruct (ceil_div_bounds T B) as (Hk0 & _); [lia|lia|].
    exists d; repeat split; try assumption.
    rewrite Hcalls, batch_windows_length; apply Z2Nat.id; exact Hk0.
  - intros Hpos; split.
    + apply driver_step_zero; cbn; unfold SIZE_MOD; lia.
    + intros fuel; apply driver_loop_zero_runs_on; [lia | reflexivity].
Qed.

Lemma driver_loop_terminates_witness :
  (exists d,
     (forall fuel, (Z.to_nat (ceil_div 7 3) <= fuel)%nat ->
        driver_loop example_env
          (built_store example_env 4 2 (chars example_file)) 3 7 fuel
          driver_init = Some d) /\
     (forall fuel, (fuel < Z.to_nat (ceil_div 7 3))%nat ->
        driver_loop example_env
          (built_store example_env 4 2 (chars example_file)) 3 7 fuel
          driver_init = None) /\
     cnt d = ceil_div 7 3 /\
     Z.of_nat (length (calls d)) = ceil_div 7 3) /\
  (0 < 7 ->
     alignments_computed
       (driver_step example_env
          (built_store example_env 4 2 (chars example_file)) 0 7 driver_init)
     = alignments_computed driver_init /\
     forall fuel,
       driver_loop example_env
         (built_store example_env 4 2 (chars example_file)) 0 7 fuel
         driver_init = None).
Proof.
  apply (driver_loop_terminates example_env
           (built_store example_env 4 2 (chars example_file)) 7 3);
    unfold INT_MAX, SIZE_MOD; lia.
Defined.

(** ** The batch packer *)

(** A [memcpy] source that lies inside the buffer is a slot of it. *)
Lemma read_at_slot buf after (stride s : nat) :
  ((s + 1) * stride <= length buf)%nat ->
  read_at buf after (Z.of_nat (s * stride)) stride = slot buf stride s.
Proof.
  intros Hfit; unfold read_at, slot.
  apply (nth_ext _ _ NUL NUL).
  - rewrite length_map, length_seq, length_firstn, length_skipn; lia.
  - rewrite length_map, length_seq; intros j Hj.
    rewrite (nth_indep _ NUL (byte_at buf after (Z.of_nat (s * stride)
                                                 + Z.of_nat 0)))
      by (rewrite length_map, length_seq; exact Hj).
    rewrite (map_nth (fun j => byte_at buf after (Z.of_nat (s * stride)
                                                  + Z.of_nat j))).
    rewrite seq_nth by exact Hj; cbn [Nat.add].
    rewrite nth_firstn.
    assert (E : (j <? stride)%nat = true) by (apply Nat.ltb_lt; exact Hj).
    rewrite E, nth_skipn; unfold byte_at.
    destruct (Z.ltb_spec (Z.of_nat (s * stride) + Z.of_nat j)
                (Z.of_nat (length buf))); [|lia].
    f_equal; lia.
Qed.

Lemma copied_length env sequences batch_offset src_index i :
  length (copied env sequences batch_offset src_index i)
  = Z.to_nat (seq_len sequences).
Proof. unfold copied, read_at; now rewrite length_map, length_seq. Qed.

(** A copy loop in closed form: started at [i] on a vector whose slots
    from [i] on are zero, with [todo] passes to make, it fills the next
    [todo] slots with what it reads and leaves the rest. *)
Lemma copy_loop_closed env sequences batch_offset src_index :
  let stride := Z.to_nat (seq_len sequences) in
  0 <= seq_len sequences ->
  forall (todo i m : nat) pre,
  length pre = (i * stride)%nat -> (todo <= m)%nat ->
  Z.of_nat ((i + todo) * stride) <= UINT32_MOD ->
  copy_loop env sequences batch_offset (seq_len sequences) src_index
    todo (Z.of_nat i) (pre ++ nzeros (m * stride))
  = Some (pre ++ concat (map (copied env sequences batch_offset src_index)
                           (seq i todo))
              ++ nzeros ((m - todo) * stride)).
Proof.
  intros stride Hlen todo.
  induction todo as [|todo IH]; intros i m pre Hpre Hm Hfit.
  - cbn [copy_loop seq map concat app]; now rewrite Nat.sub_0_r.
  - cbn [copy_loop].
    destruct m as [|m']; [lia|].
    assert (Hstride : Z.of_nat stride = seq_len sequences)
      by (subst stride; apply Z2Nat.id; exact Hlen).
    assert (Hoff : to_uint32 (Z.of_nat i * seq_len sequences)
                   = Z.of_nat (length pre)).
    { rewrite Hpre, <- Hstride, to_uint32_small; [lia|].
      destruct (Nat.eq_dec stride 0) as [Hz|Hnz];
        [rewrite Hz; unfold UINT32_MOD; lia | nia]. }
    rewrite Hoff.
    replace (S m' * stride)%nat with (stride + m' * stride)%nat by lia.
    rewrite nzeros_app.
    fold (copied env sequences batch_offset src_index i).
    rewrite write_at_middle
      by (rewrite copied_length, nzeros_length; reflexivity).
    replace (Z.of_nat i + 1) with (Z.of_nat (S i)) by lia.
    rewrite app_assoc, (IH (S i) m').
    + cbn [seq map concat]; rewrite <- !app_assoc; reflexivity.
    + rewrite length_app, copied_length; fold stride; lia.
    + lia.
    + replace ((S i + todo) * stride)%nat with ((i + S todo) * stride)%nat
        by lia; exact Hfit.
Qed.

Lemma copied_blocks env sequences batch_offset src_index (l : list nat) :
  Forall (fun b => length b = Z.to_nat (seq_len sequences))
    (map (copied env sequences batch_offset src_index) l).
Proof.
  induction l as [|i l IH]; cbn [map]; constructor;
    [apply copied_length | exact IH].
Qed.

(** What the two copy loops leave in the host vectors, for a batch whose
    bytes fit the [uint32] arithmetic of the loops: slot [k] of the pattern
    vector is what lies at sequence number [batch_offset + 2k], slot [k] of
    the text vector what lies at sequence number [batch_offset + 2k + 2]. *)
Lemma packed_reads env sequences batch_offset batch_size time (k : nat) :
  let stride := Z.to_nat (seq_len sequences) in
  let run := batch_alignment_test env sequences batch_offset batch_size time in
  0 <= seq_len sequences ->
  0 <= batch_size <= INT_MAX ->
  batch_size * seq_len sequences < UINT32_MOD ->
  Z.of_nat k < batch_size ->
  exists hp ht,
    h_pattern run = Some hp /\ h_text run = Some ht /\
    length hp = (Z.to_nat batch_size * stride)%nat /\
    length ht = (Z.to_nat batch_size * stride)%nat /\
    slot hp stride k = copied env sequences batch_offset pattern_index k /\
    slot ht stride k = copied env sequences batch_offset text_index k.
Proof.
  intros stride run Hlen Hsize Hfit Hk.
  assert (Hmax : INT_MAX = 2147483647) by reflexivity.
  assert (Hmod : UINT32_MOD = 4294967296) by reflexivity.
  assert (Hstride : Z.of_nat stride = seq_len sequences)
    by (subst stride; apply Z2Nat.id; exact Hlen).
  assert (Hlen32 : to_uint32 (seq_len sequences) = seq_len sequences)
    by (apply to_uint32_small; nia).
  assert (Hn : Z.to_nat (to_uint32 (batch_size * seq_len sequences))
               = (Z.to_nat batch_size * stride)%nat).
  { rewrite to_uint32_small by nia. subst stride.
    apply Z2Nat.inj_mul; lia. }
  pose proof (fun idx =>
    copy_loop_closed env sequences batch_offset idx Hlen
      (Z.to_nat batch_size) 0 (Z.to_nat batch_size) [] eq_refl (Nat.le_refl _))
    as Hloop.
  cbn [Z.of_nat app Nat.add] in Hloop; fold stride in Hloop.
  rewrite Nat.sub_diag in Hloop; cbn [Nat.mul nzeros repeat] in Hloop.
  assert (Hfit' : Z.of_nat (Z.to_nat batch_size * stride) <= UINT32_MOD) by nia.
  eexists; eexists.
  subst run; unfold batch_alignment_test; cbv zeta.
  cbn [h_pattern h_text].
  rewrite Hlen32, Hn, !Hloop by exact Hfit'.
  rewrite !app_nil_r.
  split; [reflexivity|]; split; [reflexivity|].
  assert (Hseq : forall idx,
            nth k (map (copied env sequences batch_offset idx)
                     (seq 0 (Z.to_nat batch_size))) []
            = copied env sequences batch_offset idx k).
  { intros idx.
    rewrite (nth_indep _ [] (copied env sequences batch_offset idx 0))
      by (rewrite length_map, length_seq; lia).
    rewrite (map_nth (copied env sequences batch_offset idx)).
    rewrite seq_nth by lia; reflexivity. }
  split; [|split; [|split]].
  - rewrite (concat_blocks_length stride) by apply copied_blocks.
    now rewrite length_map, length_seq.
  - rewrite (concat_blocks_length stride) by apply copied_blocks.
    now rewrite length_map, length_seq.
  - rewrite <- (app_nil_r (concat _)), slot_of_blocks, Hseq;
      [reflexivity | apply copied_blocks
      | rewrite length_map, length_seq; lia].
  - rewrite <- (app_nil_r (concat _)), slot_of_blocks, Hseq;
      [reflexivity | apply copied_blocks
      | rewrite length_map, length_seq; lia].
Qed.

(** The two host vectors in closed form, for a batch whose bytes fit the
    [uint32] arithmetic of the copy loops. *)
Lemma packed_vectors env sequences batch_offset batch_size time :
  let run := batch_alignment_test env sequences batch_offset batch_size time in
  0 <= seq_len sequences ->
  0 <= batch_size ->
  batch_size * seq_len sequences < UINT32_MOD ->
  h_pattern run
  = Some (concat (map (copied env sequences batch_offset pattern_index)
                    (seq 0 (Z.to_nat batch_size)))) /\
  h_text run
  = Some (concat (map (copied env sequences batch_offset text_index)
                    (seq 0 (Z.to_nat batch_size)))).
Proof.
  intros run Hlen Hsize Hfit.
  assert (Hmod : UINT32_MOD = 4294967296) by reflexivity.
  set (stride := Z.to_nat (seq_len sequences)).
  assert (Hstride : Z.of_nat stride = seq_len sequences)
    by (subst stride; apply Z2Nat.id; exact Hlen).
  assert (Hn : Z.to_nat (to_uint32 (batch_size * seq_len sequences))
               = (Z.to_nat batch_size * stride)%nat).
  { rewrite to_uint32_small by nia. subst stride.
    apply Z2Nat.inj_mul; lia. }
  subst run; unfold batch_alignment_test; cbv zeta; cbn [h_pattern h_text].
  destruct (Z.eq_dec batch_size 0) as [->|Hpos].
  - cbn [Z.to_nat copy_loop seq map concat Z.mul to_uint32].
    change (0 mod UINT32_MOD) with 0; cbn [Z.to_nat nzeros repeat].
    split; reflexivity.
  - rewrite (to_uint32_small (seq_len sequences)) by nia.
    rewrite Hn.
    pose proof (fun idx =>
      copy_loop_closed env sequences batch_offset idx Hlen
        (Z.to_nat batch_size) 0 (Z.to_nat batch_size) [] eq_refl
        (Nat.le_refl _)) as Hloop.
    cbn [Z.of_nat app Nat.add] in Hloop; fold stride in Hloop.
    rewrite Nat.sub_diag in Hloop; cbn [Nat.mul nzeros repeat] in Hloop.
    rewrite !Hloop by nia.
    rewrite !app_nil_r; split; reflexivity.
Qed.

(** X1, the batch packer on the code: for a batch whose reads stay inside
    the store, slot [k] of the pattern vector is a copy of store slot
    [batch_offset + 2k] and slot [k] of the text vector a copy of store
    slot [batch_offset + 2k + 2]. *)
Theorem packed_slots env sequences batch_offset batch_size time (k : nat) :
  let stride := Z.to_nat (seq_len sequences) in
  let run := batch_alignment_test env sequences batch_offset batch_size time in
  0 <= seq_len sequences ->
  0 <= batch_offset <= INT_MAX ->
  0 <= batch_size <= INT_MAX ->
  batch_size * seq_len sequences < UINT32_MOD ->
  Z.of_nat k < batch_size ->
  (batch_offset + 2 * Z.of_nat k + 3) * seq_len sequences
    <= Z.of_nat (length (sequences_buffer sequences)) < SIZE_MOD ->
  exists hp ht,
    h_pattern run = Some hp /\ h_text run = Some ht /\
    slot hp stride k
    = slot (sequences_buffer sequences) stride (Z.to_nat batch_offset + 2 * k) /\
    slot ht stride k
    = slot (sequences_buffer sequences) stride (Z.to_nat batch_offset + 2 * k + 2).
Proof.
  intros stride run Hlen Hoff Hsize Hfit Hk Hin.
  assert (Hmax : INT_MAX = 2147483647) by reflexivity.
  assert (Hmod : UINT32_MOD = 4294967296) by reflexivity.
  assert (Hmod64 : SIZE_MOD = 18446744073709551616) by reflexivity.
  assert (Hstride : Z.of_nat stride = seq_len sequences)
    by (subst stride; apply Z2Nat.id; exact Hlen).
  destruct (packed_reads env sequences batch_offset batch_size time k
              Hlen Hsize Hfit Hk) as (hp & ht & Hp & Ht & _ & _ & Sp & St).
  exists hp, ht; split; [exact Hp|]; split; [exact Ht|].
  fold stride in Sp, St; rewrite Sp, St; unfold copied; fold stride.
  assert (Hget : forall s : nat,
            (s <= Z.to_nat batch_offset + 2 * k + 2)%nat ->
            get_sequence sequences (Z.of_nat s) = Z.of_nat (s * stride)).
  { intros s Hs; unfold get_sequence; rewrite to_size_t_small; nia. }
  split.
  - unfold pattern_index.
    rewrite to_uint32_small, to_size_t_small by lia.
    replace (batch_offset + Z.of_nat k * 2)
      with (Z.of_nat (Z.to_nat batch_offset + 2 * k)) by lia.
    rewrite Hget by lia. apply read_at_slot; nia.
  - unfold text_index.
    rewrite (to_uint32_small (Z.of_nat k + 1)) by lia.
    rewrite to_uint32_small, to_size_t_small by lia.
    replace (batch_offset + (Z.of_nat k + 1) * 2)
      with (Z.of_nat (Z.to_nat batch_offset + 2 * k + 2)) by lia.
    rewrite Hget by lia. apply read_at_slot; nia.
Qed.

Lemma packed_slots_witness :
  exists hp ht,
    h_pattern (batch_alignment_test pairs_env
                 (built_store pairs_env 2 2 (chars pairs_file)) 0 1
                 PrimFloat.zero) = Some hp /\
    h_text (batch_alignment_test pairs_env
              (built_store pairs_env 2 2 (chars pairs_file)) 0 1
              PrimFloat.zero) = Some ht /\
    slot hp (Z.to_nat 2) 0
    = slot (sequences_buffer (built_store pairs_env 2 2 (chars pairs_file)))
        (Z.to_nat 2) (Z.to_nat 0 + 2 * 0) /\
    slot ht (Z.to_nat 2) 0
    = slot (sequences_buffer (built_store pairs_env 2 2 (chars pairs_file)))
        (Z.to_nat 2) (Z.to_nat 0 + 2 * 0 + 2).
Proof.
  apply (packed_slots pairs_env (built_store pairs_env 2 2 (chars pairs_file))
           0 1 PrimFloat.zero 0); vm_compute; try split; congruence.
Defined.

(** C1, on the code: the store holds AA, CC, GG, TT.  The batch of the
    first pair (offset 0, size 1) gets AA as its pattern and GG, store slot
    2, as its text, where slot 2*(0+0)+1 holds CC.  The batch of the second
    pair (offset 1, size 1) gets CC, store slot 1, as its pattern, where
    slot 2*(1+0) holds GG. *)
Theorem packed_text_is_not_the_pair_text :
  exists this out,
    Sequences_new pairs_env "reads.txt" 2 2 = Built this out /\
    sequences_buffer this = chars "AACCGGTT" /\
    h_pattern (batch_alignment_test pairs_env this 0 1 PrimFloat.zero)
    = Some (chars "AA") /\
    h_text (batch_alignment_test pairs_env this 0 1 PrimFloat.zero)
    = Some (chars "GG") /\
    slot (sequences_buffer this) 2 (2 * (0 + 0) + 1) = chars "CC" /\
    h_pattern (batch_alignment_test pairs_env this 1 1 PrimFloat.zero)
    = Some (chars "CC") /\
    slot (sequences_buffer this) 2 (2 * (1 + 0)) = chars "GG".
Proof.
  eexists; eexists; split; [vm_compute; reflexivity|].
  repeat split; vm_compute; reflexivity.
Qed.

(** ** The reported throughput *)

(** Where the square of the stride is an [int], the value printed as
    performance is, in binary64 arithmetic,
    [(num_alignments * seq_size^2) / (total_time / 1000) / 1e9]; for 100
    pairs of stride 64 and a total time of 1 ms (the initial 0 plus one
    reading of 1 ms) it is the binary64 number nearest to 0.4096, within
    2^-55 of it. *)
Theorem reported_gcups :
  (forall T s total_time,
     0 <= T <= INT_MAX -> 0 <= s * s <= INT_MAX ->
     gcups T s total_time
     = PrimFloat.div
         (PrimFloat.div (double_of_Z (T * (s * s)))
            (PrimFloat.div total_time (double_of_Z 1000)))
         (double_of_Z 1000000000)) /\
  (let reported :=
     gcups 100 64 (PrimFloat.add PrimFloat.zero (double_of_Z 1)) in
   reported = 0x1.a36e2eb1c432dp-2%float /\
   Prim2SF reported = S754_finite false 7378697629483821 (-54) /\
   2 * Z.abs (7378697629483821 * 10000 - 4096 * 2 ^ 54) <= 10000).
Proof.
  split.
  - intros T s t HT Hs. unfold gcups; cbv zeta.
    assert (Hmax : INT_MAX = 2147483647) by reflexivity.
    assert (Hmod : SIZE_MOD = 18446744073709551616) by reflexivity.
    rewrite to_int_small by (unfold in_int, INT_MIN; lia).
    rewrite (to_size_t_of_int T), (to_size_t_of_int (s * s)) by lia.
    rewrite to_size_t_small by nia.
    reflexivity.
  - cbv zeta; split; [vm_compute; reflexivity|].
    split; [vm_compute; reflexivity | vm_compute; discriminate].
Qed.

Lemma reported_gcups_witness :
  gcups 100 64 (double_of_Z 1)
  = PrimFloat.div
      (PrimFloat.div (double_of_Z (100 * (64 * 64)))
         (PrimFloat.div (double_of_Z 1) (double_of_Z 1000)))
      (double_of_Z 1000000000).
Proof.
  apply (proj1 reported_gcups 100 64 (double_of_Z 1));
    unfold INT_MAX; lia.
Defined.

(** C5, on the code: line 255 squares the stride in [int] and converts the
    product to [uint64_t] afterwards.  For 3 pairs of stride 46341 and a
    total time of 2 ms the square, 2147488281, is not an [int]: it wraps
    to -2147479015, the number of cells becomes 18446744067267114571, and
    the value printed lies between 9223372033633 and 9223372033634, where
    [(3 * 46341^2) / 0.002 / 1e9] lies between 3221 and 3222. *)
Theorem reported_gcups_square_overflows :
  let total := PrimFloat.add PrimFloat.zero (double_of_Z 2) in
  let reported := gcups 3 46341 total in
  let stated :=
    PrimFloat.div
      (PrimFloat.div (double_of_Z (3 * (46341 * 46341)))
         (PrimFloat.div total (double_of_Z 1000)))
      (double_of_Z 1000000000) in
  INT_MAX < 46341 * 46341 /\
  to_int (46341 * 46341) = -2147479015 /\
  to_size_t (to_size_t 3 * to_size_t (to_int (46341 * 46341)))
  = 18446744067267114571 /\
  PrimFloat.ltb (double_of_Z 3221) stated = true /\
  PrimFloat.ltb stated (double_of_Z 3222) = true /\
  PrimFloat.ltb (double_of_Z 9223372033633) reported = true /\
  PrimFloat.ltb reported (double_of_Z 9223372033634) = true /\
  reported <> stated.
Proof.
  cbv zeta; repeat split; try (vm_compute; reflexivity).
  vm_compute; intros H.
  apply (f_equal Prim2SF) in H; vm_compute in H; discriminate H.
Qed.

(** ** The exit status of [main] *)

Lemma to_int_range z : in_int (to_int z).
Proof.
  unfold in_int, to_int, INT_MIN, INT_MAX, UINT32_MOD.
  pose proof (Z.mod_pos_bound (z + 2 ^ 31) (2 ^ 32) ltac:(lia)); lia.
Qed.

Lemma atoi_range s : in_int (atoi s).
Proof. apply to_int_range. Qed.

Lemma given_batch_size_range rest : 0 <= given_batch_size rest < SIZE_MOD.
Proof.
  destruct rest; cbn [given_batch_size];
    [unfold SIZE_MOD; lia | apply to_size_t_range].
Qed.

(** [main] past the test on [argc]. *)
Lemma main_with_arguments env fuel prog file sl sn rest :
  (length rest <= 1)%nat ->
  main env fuel (prog :: file :: sl :: sn :: rest)
  = let (batch_size, msg) :=
      clamp_batch_size (given_batch_size rest) (atoi sn) in
    match Sequences_new env file (atoi sl) (atoi sn) with
    | Stopped o out => Some (o, msg :: out)
    | Built sequences out =>
        match driver_loop env sequences batch_size (atoi sn) fuel
                driver_init with
        | None => None
        | Some d =>
            match fault d with
            | Some c =>
                Some (Undefined, msg :: out ++ firstn (Z.to_nat c) (printed d))
            | None =>
                Some (Exit 0,
                      msg :: out ++ printed d
                      ++ [OutPerformance (atoi sn) (total_time d)
                            (gcups (atoi sn) (atoi sl) (total_time d))])
            end
        end
    end.
Proof.
  intros Hlen.
  destruct rest as [|b [|x rest]]; [reflexivity | reflexivity | simpl in Hlen; lia].
Qed.

(** The constructor keeps the stride it was given. *)
Lemma read_sequences_seq_len env limit lines :
  forall this k n built,
    read_sequences env this limit lines k = Some (n, built) ->
    seq_len built = seq_len this.
Proof.
  induction lines as [|line rest IH]; intros this k n built; cbn [read_sequences].
  - intros H; injection H as _ <-; reflexivity.
  - destruct (k <? limit); [|intros H; injection H as _ <-; reflexivity].
    destruct (write_at _ _ _) as [buf|]; [|discriminate].
    destruct (store_int _ _ _) as [lens|]; [|discriminate].
    intros H; apply IH in H; exact H.
Qed.

Lemma Sequences_new_seq_len env filepath seq_len_arg num_alignments_arg this out :
  Sequences_new env filepath seq_len_arg num_alignments_arg = Built this out ->
  seq_len this = to_size_t seq_len_arg.
Proof.
  unfold Sequences_new; cbv zeta.
  destruct (negb (new_char_ok env _)); [discriminate|].
  destruct (negb (new_int_ok env _)); [discriminate|].
  destruct (fs_open env filepath) as [content|]; [|discriminate].
  destruct (read_sequences _ _ _ _ _) as [[n built]|] eqn:E; [|discriminate].
  intros H; injection H as <- _.
  apply read_sequences_seq_len in E; exact E.
Qed.

(** A pass whose batch fits the [uint32] size of the host vectors leaves
    the run defined. *)
Lemma driver_step_no_fault env sequences batch_size total d :
  0 <= seq_len sequences -> 0 <= batch_size ->
  batch_size * seq_len sequences < UINT32_MOD ->
  fault d = None ->
  fault (driver_step env sequences batch_size total d) = None.
Proof.
  intros Hlen Hb Hfit Hd; cbn [driver_step fault]; rewrite Hd.
  set (curr := Z.min batch_size _).
  assert (Hcurr : 0 <= to_uint32 curr <= batch_size).
  { pose proof (to_size_t_range (to_size_t total - alignments_computed d)).
    assert (0 <= curr <= batch_size) by (subst curr; lia).
    unfold to_uint32.
    pose proof (Z.mod_pos_bound curr UINT32_MOD ltac:(reflexivity)).
    pose proof (Z.mod_le curr UINT32_MOD ltac:(lia) ltac:(reflexivity)). lia. }
  destruct (packed_vectors env sequences (alignments_computed d)
              (to_uint32 curr) (total_time d) Hlen (proj1 Hcurr) ltac:(nia))
    as (Hp & Ht).
  unfold copies_defined; rewrite Hp, Ht; reflexivity.
Qed.

Lemma driver_loop_no_fault env sequences batch_size total :
  0 <= seq_len sequences -> 0 <= batch_size ->
  batch_size * seq_len sequences < UINT32_MOD ->
  forall fuel d d',
    fault d = None ->
    driver_loop env sequences batch_size total fuel d = Some d' ->
    fault d' = None.
Proof.
  intros Hlen Hb Hfit; induction fuel as [|fuel IH]; intros d d' Hd;
    cbn [driver_loop]; destruct (alignments_computed d <? to_size_t total);
    try discriminate; try (intros H; injection H as <-; exact Hd).
  apply IH, driver_step_no_fault; assumption.
Qed.

(** A fault, once recorded, stays. *)
Lemma driver_loop_fault_kept env sequences batch_size total c :
  forall fuel d d',
    fault d = Some c ->
    driver_loop env sequences batch_size total fuel d = Some d' ->
    fault d' = Some c.
Proof.
  induction fuel as [|fuel IH]; intros d d' Hd;
    cbn [driver_loop]; destruct (alignments_computed d <? to_size_t total);
    try discriminate; try (intros H; injection H as <-; exact Hd).
  apply IH; cbn [driver_step fault]; rewrite Hd; reflexivity.
Qed.

(** The batch size the loop runs with is at least 1, unless 0 was given or
    there is no pair. *)
Lemma clamped_batch_size_positive b0 T :
  1 <= b0 < SIZE_MOD -> 1 <= T <= INT_MAX ->
  1 <= fst (clamp_batch_size b0 T) < SIZE_MOD.
Proof.
  intros Hb HT; unfold clamp_batch_size.
  rewrite to_size_t_of_int by lia.
  destruct (Z.gtb_spec b0 T); cbn [fst]; unfold INT_MAX, SIZE_MOD in *; lia.
Qed.

(** With no pair the loop makes no pass. *)
Lemma driver_loop_no_pair env sequences batch_size fuel :
  driver_loop env sequences batch_size 0 fuel driver_init = Some driver_init.
Proof. destruct fuel; reflexivity. Qed.

(** Once the store is built, the loop ends and [main] returns 0, provided
    the batch size given is not 0 or there is no pair, and the bytes of a
    batch fit the [uint32] size of the host vectors. *)
Lemma main_completes env prog file sl sn rest sequences out0 :
  (length rest <= 1)%nat ->
  Sequences_new env file (atoi sl) (atoi sn) = Built sequences out0 ->
  0 <= atoi sn ->
  given_batch_size rest <> 0 \/ atoi sn = 0 ->
  fst (clamp_batch_size (given_batch_size rest) (atoi sn)) * to_size_t (atoi sl)
    < UINT32_MOD ->
  exists fuel0 out,
    forall fuel, (fuel0 <= fuel)%nat ->
      main env fuel (prog :: file :: sl :: sn :: rest) = Some (Exit 0, out).
Proof.
  intros Hlen Hbuilt HT Hb Hfit.
  pose proof (atoi_range sn) as Hint.
  pose proof (given_batch_size_range rest) as Hrange.
  pose proof (Sequences_new_seq_len _ _ _ _ _ _ Hbuilt) as Hstride.
  pose proof (to_size_t_range (atoi sl)) as Hstride_range.
  destruct (clamp_batch_size (given_batch_size rest) (atoi sn))
    as [batch_size msg] eqn:Hclamp; cbn [fst] in Hfit.
  destruct (Z.eq_dec (atoi sn) 0) as [Hzero|Hpos].
  - exists 0%nat; eexists; intros fuel _.
    rewrite main_with_arguments, Hclamp, Hbuilt by exact Hlen.
    rewrite Hzero, driver_loop_no_pair; reflexivity.
  - assert (Hsize : 1 <= batch_size < SIZE_MOD).
    { replace batch_size
        with (fst (clamp_batch_size (given_batch_size rest) (atoi sn)))
        by (now rewrite Hclamp).
      apply clamped_batch_size_positive; unfold in_int in Hint; lia. }
    destruct (driver_loop_from_init env sequences batch_size (atoi sn))
      as (d & Hrun & _); [exact Hsize | unfold in_int in Hint; lia |].
    assert (Hdef : fault d = None).
    { apply (driver_loop_no_fault env sequences batch_size (atoi sn)
               ltac:(lia) ltac:(lia) ltac:(rewrite Hstride; exact Hfit)
               _ driver_init d eq_refl (Hrun _ (Nat.le_refl _))). }
    exists (Z.to_nat (ceil_div (atoi sn) batch_size)); eexists; intros fuel Hf.
    rewrite main_with_arguments, Hclamp, Hbuilt, Hrun by assumption.
    rewrite Hdef; reflexivity.
Qed.

(** C8: [main] returns [EXIT_FAILURE], after the usage text on the error
    stream, when it is given fewer than 3 or more than 4 arguments; it
    exits with -1 (status 255) when the sequence buffer cannot be allocated
    and when the file cannot be opened, and is aborted when the array of
    lengths cannot be allocated; once the store is built, in a run whose
    batches fit the [uint32] size of the host vectors (no copy leaves its
    vector), the loop ends and [main] returns 0. *)
Theorem exit_status_of_main env :
  (forall argv fuel,
     (length argv - 1 < 3)%nat \/ (length argv - 1 > 4)%nat ->
     main env fuel argv = Some (Exit EXIT_FAILURE, [ErrUsage]) /\
     on_stderr ErrUsage = true /\
     exit_status (Exit EXIT_FAILURE) = Some 1) /\
  (forall prog file sl sn rest fuel,
     (length rest <= 1)%nat ->
     new_char_ok env
       (to_size_t (to_size_t (to_size_t (atoi sn) * to_size_t (atoi sl)) * 2))
     = false ->
     exists out,
       main env fuel (prog :: file :: sl :: sn :: rest) = Some (Exit (-1), out) /\
       In ErrBadAlloc out /\ exit_status (Exit (-1)) = Some 255) /\
  (forall prog file sl sn rest fuel,
     (length rest <= 1)%nat ->
     new_char_ok env
       (to_size_t (to_size_t (to_size_t (atoi sn) * to_size_t (atoi sl)) * 2))
     = true ->
     new_int_ok env (to_size_t (to_size_t (atoi sn) * 2)) = false ->
     exists out,
       main env fuel (prog :: file :: sl :: sn :: rest) = Some (Terminate, out) /\
       exit_status Terminate = Some 134) /\
  (forall prog file sl sn rest fuel,
     (length rest <= 1)%nat ->
     new_char_ok env
       (to_size_t (to_size_t (to_size_t (atoi sn) * to_size_t (atoi sl)) * 2))
     = true ->
     new_int_ok env (to_size_t (to_size_t (atoi sn) * 2)) = true ->
     fs_open env file = None ->
     exists out,
       main env fuel (prog :: file :: sl :: sn :: rest) = Some (Exit (-1), out) /\
       In (ErrCouldNotOpen file) out /\ exit_status (Exit (-1)) = Some 255) /\
  (forall prog file sl sn rest sequences out0,
     (length rest <= 1)%nat ->
     Sequences_new env file (atoi sl) (atoi sn) = Built sequences out0 ->
     0 <= atoi sn ->
     given_batch_size rest <> 0 \/ atoi sn = 0 ->
     fst (clamp_batch_size (given_batch_size rest) (atoi sn))
       * to_size_t (atoi sl) < UINT32_MOD ->
     exists fuel0 out,
       (forall fuel, (fuel0 <= fuel)%nat ->
          main env fuel (prog :: file :: sl :: sn :: rest) = Some (Exit 0, out)) /\
       exit_status (Exit 0) = Some 0).
Proof.
  repeat split.
  - unfold main.
    replace ((Z.of_nat (length argv) <? 4) || (Z.of_nat (length argv) >? 5))
      with true; [reflexivity|].
    symmetry; apply orb_true_iff.
    destruct (Z.ltb_spec (Z.of_nat (length argv)) 4); [now left|right].
    destruct (Z.gtb_spec (Z.of_nat (length argv)) 5); [reflexivity|lia].
  - intros prog file sl sn rest fuel Hlen Halloc.
    rewrite main_with_arguments by exact Hlen.
    destruct (clamp_batch_size _ _) as [batch_size msg].
    unfold Sequences_new; cbv zeta; rewrite Halloc; cbn [negb].
    eexists; split; [reflexivity|]; split; [|reflexivity].
    right; apply in_or_app; right; now left.
  - intros prog file sl sn rest fuel Hlen Halloc Hlens.
    rewrite main_with_arguments by exact Hlen.
    destruct (clamp_batch_size _ _) as [batch_size msg].
    unfold Sequences_new; cbv zeta; rewrite Halloc, Hlens; cbn [negb].
    eexists; split; reflexivity.
  - intros prog file sl sn rest fuel Hlen Halloc Hlens Hopen.
    rewrite main_with_arguments by exact Hlen.
    destruct (clamp_batch_size _ _) as [batch_size msg].
    unfold Sequences_new; cbv zeta; rewrite Halloc, Hlens, Hopen; cbn [negb].
    eexists; split; [reflexivity|]; split; [|reflexivity].
    right; apply in_or_app; right; now left.
  - intros prog file sl sn rest sequences out0 Hlen Hbuilt HT Hb Hfit.
    destruct (main_completes env prog file sl sn rest sequences out0
                Hlen Hbuilt HT Hb Hfit) as (fuel0 & out & Hrun).
    exists fuel0, out; split; [exact Hrun | reflexivity].
Qed.

Lemma exit_status_of_main_witness :
  (main example_env 0 ["nvbio-benchmark"; "reads.txt"]%string
   = Some (Exit EXIT_FAILURE, [ErrUsage]) /\
   on_stderr ErrUsage = true /\
   exit_status (Exit EXIT_FAILURE) = Some 1) /\
  (exists out,
     main no_memory_env 0 ["nvbio-benchmark"; "reads.txt"; "4"; "2"]%string
     = Some (Exit (-1), out) /\
     In ErrBadAlloc out /\ exit_status (Exit (-1)) = Some 255) /\
  (exists out,
     main lengths_fail_env 0 ["nvbio-benchmark"; "reads.txt"; "4"; "2"]%string
     = Some (Terminate, out) /\
     exit_status Terminate = Some 134) /\
  (exists out,
     main example_env 0 ["nvbio-benchmark"; "missing.txt"; "4"; "2"]%string
     = Some (Exit (-1), out) /\
     In (ErrCouldNotOpen "missing.txt") out /\
     exit_status (Exit (-1)) = Some 255) /\
  (exists fuel0 out,
     (forall fuel, (fuel0 <= fuel)%nat ->
        main example_env fuel
          ["nvbio-benchmark"; "reads.txt"; "4"; "2"; "1"]%string
        = Some (Exit 0, out)) /\
     exit_status (Exit 0) = Some 0).
Proof.
  destruct (exit_status_of_main example_env) as (Husage & _ & _ & Hopen & Hdone).
  destruct (exit_status_of_main no_memory_env) as (_ & Halloc & _).
  destruct (exit_status_of_main lengths_fail_env) as (_ & _ & Hlens & _).
  split; [|split; [|split; [|split]]].
  - apply Husage; left; cbn; lia.
  - apply Halloc; [cbn; lia | reflexivity].
  - apply Hlens; [cbn; lia | reflexivity | reflexivity].
  - apply Hopen; [cbn; lia | reflexivity | reflexivity | reflexivity].
  - apply (Hdone "nvbio-benchmark" "reads.txt" "4" "2" ["1"]
             (built_store example_env 4 2 (chars example_file)))%string
      with (out0 := [OutSequencesInfo "reads.txt" 4 2; OutAllocating 0;
                     OutRead 4 0]).
    + cbn; lia.
    + vm_compute; reflexivity.
    + vm_compute; discriminate.
    + left; vm_compute; discriminate.
    + vm_compute; reflexivity.
Defined.

(** * Further properties of the code *)

(** ** The store: sizes, lookup, short and long files *)

Lemma built_buffer_length env stride pairs content :
  length (sequences_buffer (built_store env stride pairs content))
  = (Z.to_nat (pairs * 2) * Z.to_nat stride)%nat.
Proof.
  unfold built_store; cbn [sequences_buffer].
  rewrite length_app, nzeros_length.
  rewrite (concat_blocks_length (Z.to_nat stride)) by apply stored_slots_stride.
  rewrite stored_slots_length, length_firstn; nia.
Qed.

Lemma built_lens_length env stride pairs content :
  length (sequences_len (built_store env stride pairs content))
  = Z.to_nat (pairs * 2).
Proof.
  unfold built_store; cbn [sequences_len].
  rewrite length_app, length_map, length_firstn, repeat_length; lia.
Qed.

(** The length array of the built store, at an index no line was read
    for, holds an element nothing was stored in. *)
Lemma built_len_unread env stride pairs content i :
  (Nat.min (Z.to_nat (pairs * 2)) (length (getlines content)) <= i
   < Z.to_nat (pairs * 2))%nat ->
  nth_error (sequences_len (built_store env stride pairs content)) i
  = Some None.
Proof.
  intros Hi; unfold built_store; cbn [sequences_len].
  rewrite nth_error_app2 by (rewrite length_map, length_firstn; lia).
  rewrite length_map, length_firstn.
  apply nth_error_repeat; lia.
Qed.

(** A sequence without NUL that fits the stride, followed by the padding,
    reads back as itself. *)
Lemma c_string_padded s k : ~ In NUL s -> c_string (s ++ nzeros k) = s.
Proof.
  induction s as [|c rest IH]; intros Hnul.
  - destruct k; reflexivity.
  - cbn [app c_string].
    destruct (Ascii.eqb_spec c NUL) as [E|_].
    + exfalso; apply Hnul; now left.
    + rewrite IH; [reflexivity | intros Hin; apply Hnul; now right].
Qed.

(** X2, store and look up: for a line with its marker whose sequence has no
    NUL and fits the stride, [get_sequence] of its number is the number
    times the stride, the [stride] bytes from there lie inside the buffer,
    and the C string they hold is the sequence. *)
Theorem stored_sequence_reads_back
    env filepath stride pairs content i marker body :
  constructible env filepath stride pairs content ->
  nth_error (getlines content) i = Some (marker :: body) ->
  Z.of_nat i < pairs * 2 ->
  ~ In NUL body ->
  Z.of_nat (length body) <= stride ->
  exists this out,
    Sequences_new env filepath stride pairs = Built this out /\
    get_sequence this (Z.of_nat i) = Z.of_nat i * stride /\
    get_sequence this (Z.of_nat i) + stride
      <= Z.of_nat (length (sequences_buffer this)) /\
    c_string (read_at (sequences_buffer this) (heap_after env)
                (get_sequence this (Z.of_nat i)) (Z.to_nat stride))
    = body.
Proof.
  intros Hc Hline Hi Hnul Hfit.
  pose proof Hc as (Hs & Hp & Ha & Hl & Hf).
  assert (Hmax : INT_MAX = 2147483647) by reflexivity.
  assert (Hmod : SIZE_MOD = 18446744073709551616) by reflexivity.
  assert (Hlen : (i < length (getlines content))%nat)
    by (apply nth_error_Some; congruence).
  assert (Hnth : nth i (getlines content) [] = marker :: body)
    by (apply nth_error_nth; exact Hline).
  exists (built_store env stride pairs content); eexists.
  split; [apply Sequences_new_built; assumption|].
  pose proof (built_buffer_length env stride pairs content) as Hbuf.
  assert (Hget : get_sequence (built_store env stride pairs content) (Z.of_nat i)
                 = Z.of_nat (i * Z.to_nat stride)).
  { unfold get_sequence; cbn [built_store seq_len].
    rewrite to_size_t_small; nia. }
  split; [rewrite Hget; nia|]; split; [rewrite Hget, Hbuf; nia|].
  rewrite Hget, read_at_slot by (rewrite Hbuf; nia).
  rewrite built_slot by lia.
  rewrite Hnth; cbn [c_str_plus_1].
  unfold strncpy_bytes; cbv zeta.
  rewrite c_string_terminated, (c_string_no_nul body Hnul).
  rewrite firstn_all2 by lia.
  apply c_string_padded; exact Hnul.
Qed.

Lemma stored_sequence_reads_back_witness :
  exists this out,
    Sequences_new example_env "reads.txt" 4 2 = Built this out /\
    get_sequence this (Z.of_nat 1) = Z.of_nat 1 * 4 /\
    get_sequence this (Z.of_nat 1) + 4
      <= Z.of_nat (length (sequences_buffer this)) /\
    c_string (read_at (sequences_buffer this) (heap_after example_env)
                (get_sequence this (Z.of_nat 1)) (Z.to_nat 4))
    = chars "AC".
Proof.
  apply (stored_sequence_reads_back example_env "reads.txt" 4 2
           (chars example_file) 1 "<"%char (chars "AC")).
  - exact example_constructible.
  - reflexivity.
  - lia.
  - vm_compute; intuition discriminate.
  - vm_compute; discriminate.
Defined.

(** X3, a file shorter than requested: when the file has fewer lines than
    twice the number of pairs, the constructor still returns a store; it
    reports the number of lines as the number of sequences read; every slot
    past the lines is all zero and its length was never stored. *)
Theorem short_file_leaves_slots_empty env filepath stride pairs content :
  constructible env filepath stride pairs content ->
  Z.of_nat (length (getlines content)) < pairs * 2 ->
  exists this out,
    Sequences_new env filepath stride pairs = Built this out /\
    In (OutRead (Z.of_nat (length (getlines content))) (read_timer_ms env)) out /\
    forall i,
      (length (getlines content) <= i)%nat -> Z.of_nat i < pairs * 2 ->
      slot (sequences_buffer this) (Z.to_nat stride) i = nzeros (Z.to_nat stride) /\
      nth_error (sequences_len this) i = Some None.
Proof.
  intros (Hs & Hp & Ha & Hl & Hf) Hshort.
  exists (built_store env stride pairs content); eexists.
  split; [apply Sequences_new_built; assumption|].
  assert (Hmin : Nat.min (Z.to_nat (pairs * 2)) (length (getlines content))
                 = length (getlines content)) by lia.
  split.
  - rewrite Hmin; right; right; now left.
  - intros i Hi1 Hi2; split.
    + apply built_slot_unread; lia.
    + apply built_len_unread; lia.
Qed.

Lemma short_file_leaves_slots_empty_witness :
  exists this out,
    Sequences_new blank_line_env "reads.txt" 4 2 = Built this out /\
    In (OutRead (Z.of_nat (length (getlines (chars blank_line_file))))
          (read_timer_ms blank_line_env)) out /\
    forall i,
      (length (getlines (chars blank_line_file)) <= i)%nat ->
      Z.of_nat i < 2 * 2 ->
      slot (sequences_buffer this) (Z.to_nat 4) i = nzeros (Z.to_nat 4) /\
      nth_error (sequences_len this) i = Some None.
Proof.
  apply (short_file_leaves_slots_empty blank_line_env "reads.txt" 4 2
           (chars blank_line_file)).
  - unfold constructible; repeat split; vm_compute; congruence.
  - vm_compute; reflexivity.
Defined.

(** X4, a file longer than requested: the store depends on the first
    [2 * pairs] lines only.  Two files that agree on these lines give the
    same store and the same output. *)
Theorem lines_past_the_pairs_are_ignored
    env file1 file2 stride pairs content1 content2 :
  constructible env file1 stride pairs content1 ->
  constructible env file2 stride pairs content2 ->
  firstn (Z.to_nat (pairs * 2)) (getlines content1)
  = firstn (Z.to_nat (pairs * 2)) (getlines content2) ->
  exists this read ms,
    Sequences_new env file1 stride pairs
    = Built this [OutSequencesInfo file1 stride pairs;
                  OutAllocating (pairs * stride * 2 / 2 ^ 20);
                  OutRead read ms] /\
    Sequences_new env file2 stride pairs
    = Built this [OutSequencesInfo file2 stride pairs;
                  OutAllocating (pairs * stride * 2 / 2 ^ 20);
                  OutRead read ms].
Proof.
  intros (Hs & Hp & Ha & Hl & Hf1) (_ & _ & _ & _ & Hf2) Hsame.
  assert (Hmin : Nat.min (Z.to_nat (pairs * 2)) (length (getlines content1))
                 = Nat.min (Z.to_nat (pairs * 2)) (length (getlines content2))).
  { rewrite <- !length_firstn; now rewrite Hsame. }
  exists (built_store env stride pairs content1); eexists; eexists.
  split; [apply Sequences_new_built; assumption|].
  rewrite (Sequences_new_built env file2 stride pairs content2) by assumption.
  unfold built_store; rewrite Hsame, Hmin; reflexivity.
Qed.

Lemma lines_past_the_pairs_are_ignored_witness :
  exists this read ms,
    Sequences_new two_files_env "reads.txt" 4 2
    = Built this [OutSequencesInfo "reads.txt" 4 2;
                  OutAllocating (2 * 4 * 2 / 2 ^ 20);
                  OutRead read ms] /\
    Sequences_new two_files_env "longer.txt" 4 2
    = Built this [OutSequencesInfo "longer.txt" 4 2;
                  OutAllocating (2 * 4 * 2 / 2 ^ 20);
                  OutRead read ms].
Proof.
  apply (lines_past_the_pairs_are_ignored two_files_env "reads.txt"
           "longer.txt" 4 2 (chars example_file) (chars longer_file)).
  - unfold constructible; repeat split; vm_compute; congruence.
  - unfold constructible; repeat split; vm_compute; congruence.
  - vm_compute; reflexivity.
Defined.

(** ** The host vectors and the offset tables *)

(** X5, the offset tables: for a batch whose bytes fit the [uint32]
    arithmetic, each of the two tables has [batch_size + 1] entries, entry
    [i] is [i * seq_len], the two tables are equal, and the last entry is
    the length of each host vector. *)
Theorem offset_tables_describe_the_vectors
    env sequences batch_offset batch_size time :
  let run := batch_alignment_test env sequences batch_offset batch_size time in
  0 <= seq_len sequences ->
  0 <= batch_size <= INT_MAX ->
  batch_size * seq_len sequences < UINT32_MOD ->
  Z.of_nat (length (d_pattern_offsets run)) = batch_size + 1 /\
  d_text_offsets run = d_pattern_offsets run /\
  (forall i : nat, Z.of_nat i <= batch_size ->
     nth i (d_pattern_offsets run) 0 = Z.of_nat i * seq_len sequences) /\
  exists hp ht,
    h_pattern run = Some hp /\ h_text run = Some ht /\
    nth (Z.to_nat batch_size) (d_pattern_offsets run) 0 = Z.of_nat (length hp) /\
    length ht = length hp.
Proof.
  intros run Hlen Hsize Hfit.
  assert (Hmax : INT_MAX = 2147483647) by reflexivity.
  assert (Hmod : UINT32_MOD = 4294967296) by reflexivity.
  assert (Hcount : Z.to_nat (to_uint32 (batch_size + 1))
                   = S (Z.to_nat batch_size))
    by (rewrite to_uint32_small by lia; lia).
  assert (Hnth : forall i : nat, Z.of_nat i <= batch_size ->
            nth i (d_pattern_offsets run) 0 = Z.of_nat i * seq_len sequences).
  { intros i Hi; subst run; cbn [batch_alignment_test d_pattern_offsets].
    unfold thrust_sequence; rewrite Hcount.
    rewrite (nth_indep _ 0 (to_uint32 (Z.of_nat 0 * to_uint32 (seq_len sequences))))
      by (rewrite length_map, length_seq; lia).
    rewrite (map_nth (fun k => to_uint32 (Z.of_nat k * to_uint32 (seq_len sequences)))).
    rewrite seq_nth by lia; cbn [Nat.add].
    destruct (Z.eq_dec (Z.of_nat i) 0) as [E|E].
    - rewrite E; reflexivity.
    - rewrite (to_uint32_small (seq_len sequences)) by nia.
      apply to_uint32_small; nia. }
  split; [|split; [reflexivity|split; [exact Hnth|]]].
  - subst run; cbn [batch_alignment_test d_pattern_offsets].
    unfold thrust_sequence; rewrite length_map, length_seq, Hcount; lia.
  - destruct (packed_vectors env sequences batch_offset batch_size time
                Hlen (proj1 Hsize) Hfit) as (Hp & Ht).
    fold run in Hp, Ht.
    eexists; eexists; split; [exact Hp|]; split; [exact Ht|].
    rewrite Hnth by lia.
    rewrite !(concat_blocks_length (Z.to_nat (seq_len sequences)))
      by apply copied_blocks.
    rewrite !length_map, !length_seq; split; [nia | reflexivity].
Qed.

Lemma offset_tables_describe_the_vectors_witness :
  Z.of_nat (length (d_pattern_offsets
                      (batch_alignment_test pairs_env
                         (built_store pairs_env 2 2 (chars pairs_file)) 0 2
                         PrimFloat.zero))) = 2 + 1 /\
  d_text_offsets (batch_alignment_test pairs_env
                    (built_store pairs_env 2 2 (chars pairs_file)) 0 2
                    PrimFloat.zero)
  = d_pattern_offsets (batch_alignment_test pairs_env
                         (built_store pairs_env 2 2 (chars pairs_file)) 0 2
                         PrimFloat.zero) /\
  (forall i : nat, Z.of_nat i <= 2 ->
     nth i (d_pattern_offsets
              (batch_alignment_test pairs_env
                 (built_store pairs_env 2 2 (chars pairs_file)) 0 2
                 PrimFloat.zero)) 0
     = Z.of_nat i * seq_len (built_store pairs_env 2 2 (chars pairs_file))) /\
  exists hp ht,
    h_pattern (batch_alignment_test pairs_env
                 (built_store pairs_env 2 2 (chars pairs_file)) 0 2
                 PrimFloat.zero) = Some hp /\
    h_text (batch_alignment_test pairs_env
              (built_store pairs_env 2 2 (chars pairs_file)) 0 2
              PrimFloat.zero) = Some ht /\
    nth (Z.to_nat 2)
      (d_pattern_offsets
         (batch_alignment_test pairs_env
            (built_store pairs_env 2 2 (chars pairs_file)) 0 2
            PrimFloat.zero)) 0 = Z.of_nat (length hp) /\
    length ht = length hp.
Proof.
  apply (offset_tables_describe_the_vectors pairs_env
           (built_store pairs_env 2 2 (chars pairs_file)) 0 2 PrimFloat.zero);
    vm_compute; try split; congruence.
Defined.

(** ** Reads outside the store *)

(** A [memcpy] source that starts at or past the end of the buffer holds
    the bytes that follow the buffer. *)
Lemma read_at_past buf after off len :
  Z.of_nat (length buf) <= off ->
  read_at buf after off len
  = map (fun j => after (off - Z.of_nat (length buf) + Z.of_nat j)) (seq 0 len).
Proof.
  intros Hoff; unfold read_at; apply map_ext; intros j.
  unfold byte_at.
  destruct (Z.ltb_spec (off + Z.of_nat j) (Z.of_nat (length buf))); [lia|].
  f_equal; lia.
Qed.

(** X6, the last text of a single batch: when one batch takes all [T] pairs
    of a store of [T] pairs (offset 0, size [T]), the text slot of the last
    pair is read from sequence number [2T], one past the last slot: it
    holds the bytes that follow the buffer in memory, none of the store. *)
Theorem single_batch_reads_past_the_store env sequences T time :
  let stride := Z.to_nat (seq_len sequences) in
  let run := batch_alignment_test env sequences 0 T time in
  0 <= seq_len sequences ->
  1 <= T <= INT_MAX ->
  T * seq_len sequences < UINT32_MOD ->
  Z.of_nat (length (sequences_buffer sequences)) = T * 2 * seq_len sequences ->
  exists ht,
    h_text run = Some ht /\
    slot ht stride (Z.to_nat T - 1)
    = map (fun j => heap_after env (Z.of_nat j)) (seq 0 stride).
Proof.
  intros stride run Hlen HT Hfit Hbuf.
  assert (Hmax : INT_MAX = 2147483647) by reflexivity.
  assert (Hmod : UINT32_MOD = 4294967296) by reflexivity.
  assert (Hmod64 : SIZE_MOD = 18446744073709551616) by reflexivity.
  destruct (packed_reads env sequences 0 T time (Z.to_nat T - 1)
              Hlen ltac:(lia) Hfit ltac:(lia))
    as (hp & ht & _ & Ht & _ & _ & _ & St).
  exists ht; split; [exact Ht|].
  fold stride in St; rewrite St; unfold copied; fold stride.
  assert (Hidx : to_size_t (0 + text_index (Z.of_nat (Z.to_nat T - 1))) = T * 2).
  { unfold text_index.
    replace (Z.of_nat (Z.to_nat T - 1) + 1) with T by lia.
    rewrite (to_uint32_small T), to_uint32_small, to_size_t_small; lia. }
  rewrite Hidx.
  assert (Hget : get_sequence sequences (T * 2)
                 = Z.of_nat (length (sequences_buffer sequences))).
  { unfold get_sequence; rewrite Hbuf, to_size_t_small; nia. }
  rewrite Hget, read_at_past by lia.
  apply map_ext; intros j; f_equal; lia.
Qed.

Lemma single_batch_reads_past_the_store_witness :
  exists ht,
    h_text (batch_alignment_test two_files_env
              (built_store two_files_env 4 2 (chars example_file)) 0 2
              PrimFloat.zero) = Some ht /\
    slot ht (Z.to_nat (seq_len (built_store two_files_env 4 2
                                  (chars example_file))))
      (Z.to_nat 2 - 1)
    = map (fun j => heap_after two_files_env (Z.of_nat j))
        (seq 0 (Z.to_nat (seq_len (built_store two_files_env 4 2
                                     (chars example_file))))).
Proof.
  apply (single_batch_reads_past_the_store two_files_env
           (built_store two_files_env 4 2 (chars example_file)) 2
           PrimFloat.zero); vm_compute; try split; congruence.
Defined.

(** X7, more than one batch: on a store of [T] pairs (a buffer of [2T]
    slots), when the batch size is below [T], every call of the loop reads
    its patterns and its texts inside the store: pass [i] of a call at
    [offset] reads the store slots [offset + 2i] and [offset + 2i + 2],
    both below [2T]. *)
Theorem several_batches_read_inside_the_store env sequences T B :
  1 <= T <= INT_MAX -> 1 <= B < T ->
  0 <= seq_len sequences <= INT_MAX ->
  Z.of_nat (length (sequences_buffer sequences)) = T * 2 * seq_len sequences ->
  exists d,
    (forall fuel, (Z.to_nat (ceil_div T B) <= fuel)%nat ->
       driver_loop env sequences B T fuel driver_init = Some d) /\
    forall offset size (i : nat),
      In (offset, size) (calls d) -> Z.of_nat i < size ->
      (Z.to_nat offset + 2 * i + 2 < Z.to_nat (T * 2))%nat /\
      copied env sequences offset pattern_index i
      = slot (sequences_buffer sequences) (Z.to_nat (seq_len sequences))
          (Z.to_nat offset + 2 * i) /\
      copied env sequences offset text_index i
      = slot (sequences_buffer sequences) (Z.to_nat (seq_len sequences))
          (Z.to_nat offset + 2 * i + 2).
Proof.
  intros HT HB Hlen Hbuf.
  assert (Hmax : INT_MAX = 2147483647) by reflexivity.
  assert (Hmod : UINT32_MOD = 4294967296) by reflexivity.
  assert (Hmod64 : SIZE_MOD = 18446744073709551616) by reflexivity.
  destruct (driver_loop_from_init env sequences B T)
    as (d & Hrun & _ & _ & _ & Hcalls & _); [lia|lia|].
  destruct (ceil_div_bounds T B) as (Hk0 & Hk1 & Hk2); [lia|lia|].
  exists d; split; [exact Hrun|].
  intros offset size i Hin Hi.
  rewrite Hcalls in Hin.
  destruct (In_nth _ _ (0, 0) Hin) as (j & Hj & Hnth).
  rewrite batch_windows_length in Hj.
  rewrite batch_windows_nth in Hnth by exact Hj.
  injection Hnth as Hoff Hsize.
  assert (Hjk : Z.of_nat j < ceil_div T B) by lia.
  assert (HjB : Z.of_nat j * B < T) by nia.
  assert (Hoff0 : 0 <= offset) by nia.
  assert (Hin2 : offset + 2 * Z.of_nat i + 2 < T * 2) by lia.
  set (stride := Z.to_nat (seq_len sequences)).
  assert (Hstride : Z.of_nat stride = seq_len sequences)
    by (subst stride; apply Z2Nat.id; lia).
  assert (Hget : forall s : nat,
            (s <= Z.to_nat offset + 2 * i + 2)%nat ->
            get_sequence sequences (Z.of_nat s) = Z.of_nat (s * stride)).
  { intros s Hs; unfold get_sequence; rewrite to_size_t_small; nia. }
  split; [lia|]; unfold copied; fold stride; split.
  - unfold pattern_index.
    rewrite to_uint32_small, to_size_t_small by lia.
    replace (offset + Z.of_nat i * 2)
      with (Z.of_nat (Z.to_nat offset + 2 * i)) by lia.
    rewrite Hget by lia. apply read_at_slot; nia.
  - unfold text_index.
    rewrite (to_uint32_small (Z.of_nat i + 1)) by lia.
    rewrite to_uint32_small, to_size_t_small by lia.
    replace (offset + (Z.of_nat i + 1) * 2)
      with (Z.of_nat (Z.to_nat offset + 2 * i + 2)) by lia.
    rewrite Hget by lia. apply read_at_slot; nia.
Qed.

Lemma several_batches_read_inside_the_store_witness :
  exists d,
    (forall fuel, (Z.to_nat (ceil_div 2 1) <= fuel)%nat ->
       driver_loop pairs_env (built_store pairs_env 2 2 (chars pairs_file))
         1 2 fuel driver_init = Some d) /\
    forall offset size (i : nat),
      In (offset, size) (calls d) -> Z.of_nat i < size ->
      (Z.to_nat offset + 2 * i + 2 < Z.to_nat (2 * 2))%nat /\
      copied pairs_env (built_store pairs_env 2 2 (chars pairs_file)) offset
        pattern_index i
      = slot (sequences_buffer (built_store pairs_env 2 2 (chars pairs_file)))
          (Z.to_nat (seq_len (built_store pairs_env 2 2 (chars pairs_file))))
          (Z.to_nat offset + 2 * i) /\
      copied pairs_env (built_store pairs_env 2 2 (chars pairs_file)) offset
        text_index i
      = slot (sequences_buffer (built_store pairs_env 2 2 (chars pairs_file)))
          (Z.to_nat (seq_len (built_store pairs_env 2 2 (chars pairs_file))))
          (Z.to_nat offset + 2 * i + 2).
Proof.
  apply (several_batches_read_inside_the_store pairs_env
           (built_store pairs_env 2 2 (chars pairs_file)) 2 1).
  - unfold INT_MAX; lia.
  - lia.
  - vm_compute; split; discriminate.
  - vm_compute; reflexivity.
Defined.

(** ** Batches too large for the [uint32] arithmetic *)

Lemma write_at_length h off bytes h' :
  write_at h off bytes = Some h' -> length h' = length h.
Proof.
  unfold write_at.
  destruct ((0 <=? off) && (off + Z.of_nat (length bytes) <=? Z.of_nat (length h)))
    eqn:E; [|discriminate].
  apply andb_true_iff in E; destruct E as [E1 E2].
  apply Z.leb_le in E1, E2.
  intros H; injection H as <-.
  rewrite !length_app, length_firstn, length_skipn; lia.
Qed.

Lemma write_at_outside h off bytes :
  Z.of_nat (length h) < off + Z.of_nat (length bytes) ->
  write_at h off bytes = None.
Proof.
  intros H; unfold write_at.
  destruct (Z.leb_spec (off + Z.of_nat (length bytes)) (Z.of_nat (length h)));
    [lia | now rewrite andb_false_r].
Qed.

(** A copy loop that has a pass whose destination does not fit the vector
    ends in a write outside it. *)
Lemma copy_loop_overflows env sequences batch_offset len src_index :
  forall (todo : nat) (i : Z) (h : list ascii),
  (exists j, i <= j < i + Z.of_nat todo /\
             Z.of_nat (length h)
             < to_uint32 (j * len) + Z.of_nat (Z.to_nat (seq_len sequences))) ->
  copy_loop env sequences batch_offset len src_index todo i h = None.
Proof.
  induction todo as [|todo IH]; intros i h (j & Hj & Hout); [lia|].
  cbn [copy_loop].
  destruct (write_at h (to_uint32 (i * len)) _) as [h'|] eqn:Hw; [|reflexivity].
  apply IH; exists j.
  rewrite (write_at_length _ _ _ _ Hw).
  split; [|exact Hout].
  destruct (Z.eq_dec j i) as [->|Hne]; [|lia].
  rewrite write_at_outside in Hw; [discriminate|].
  unfold read_at; rewrite length_map, length_seq; exact Hout.
Qed.

(** Both copy loops of a batch of 2^32 bytes or more end outside their
    vector. *)
Lemma oversized_copies_fail env sequences batch_offset batch_size time :
  let run := batch_alignment_test env sequences batch_offset batch_size time in
  0 <= seq_len sequences < UINT32_MOD ->
  1 <= batch_size < UINT32_MOD ->
  UINT32_MOD <= batch_size * seq_len sequences ->
  h_pattern run = None /\ h_text run = None.
Proof.
  intros run Hlen Hsize Hbig.
  assert (Hmod : UINT32_MOD = 4294967296) by reflexivity.
  set (L := seq_len sequences) in *.
  assert (HL : 1 <= L) by nia.
  set (j := (UINT32_MOD - 1) / L).
  assert (Hj : 0 <= j /\ j * L <= UINT32_MOD - 1 < j * L + L).
  { pose proof (Z.div_mod (UINT32_MOD - 1) L ltac:(lia)) as E.
    pose proof (Z.mod_pos_bound (UINT32_MOD - 1) L ltac:(lia)) as R.
    assert (0 <= j) by (apply Z.div_pos; lia).
    fold j in E; nia. }
  assert (Hjn : j < batch_size) by nia.
  assert (Hvec : Z.of_nat (length (nzeros (Z.to_nat (to_uint32 (batch_size
                                      * to_uint32 L))))) < UINT32_MOD).
  { rewrite nzeros_length, Z2Nat.id;
      unfold to_uint32; pose proof (Z.mod_pos_bound (batch_size * (L mod UINT32_MOD))
                                      UINT32_MOD ltac:(lia)); lia. }
  assert (Hout : exists j0, 0 <= j0 < 0 + Z.of_nat (Z.to_nat batch_size) /\
            Z.of_nat (length (nzeros (Z.to_nat (to_uint32 (batch_size
                                        * to_uint32 L)))))
            < to_uint32 (j0 * to_uint32 L) + Z.of_nat (Z.to_nat L)).
  { exists j; split; [lia|].
    rewrite (to_uint32_small L) in * by lia.
    rewrite (to_uint32_small (j * L)) by lia.
    rewrite (Z2Nat.id L) by lia. lia. }
  subst run; unfold batch_alignment_test; cbv zeta; cbn [h_pattern h_text].
  fold L; split; apply copy_loop_overflows; exact Hout.
Qed.

(** X8, a batch of 2^32 bytes or more: the size of the host vectors is
    computed in [uint32] and wraps around, while the copy loops still write
    [seq_len] bytes per pair: both loops end in a write outside their
    vector. *)
Theorem oversized_batch_overflows_the_vectors
    env sequences batch_offset batch_size time :
  let run := batch_alignment_test env sequences batch_offset batch_size time in
  0 <= seq_len sequences < UINT32_MOD ->
  1 <= batch_size < UINT32_MOD ->
  UINT32_MOD <= batch_size * seq_len sequences ->
  h_pattern run = None /\ h_text run = None.
Proof.
  intros run Hlen Hsize Hbig.
  exact (oversized_copies_fail env sequences batch_offset batch_size time
           Hlen Hsize Hbig).
Qed.

(** A store description with sequences of 2^31 bytes (no buffer is needed
    to see the overflow). *)
Lemma oversized_batch_overflows_the_vectors_witness :
  h_pattern (batch_alignment_test example_env
               {| seq_len := 2 ^ 31; num_alignments := 2;
                  sequences_buffer := []; sequences_len := [] |}
               0 2 PrimFloat.zero) = None /\
  h_text (batch_alignment_test example_env
            {| seq_len := 2 ^ 31; num_alignments := 2;
               sequences_buffer := []; sequences_len := [] |}
            0 2 PrimFloat.zero) = None.
Proof.
  apply (oversized_batch_overflows_the_vectors example_env
           {| seq_len := 2 ^ 31; num_alignments := 2;
              sequences_buffer := []; sequences_len := [] |}
           0 2 PrimFloat.zero); cbn [seq_len]; unfold UINT32_MOD; lia.
Defined.

(** ** The windows of a run *)

(** X9, every pair in one window: the windows of the calls of a finished
    loop lie inside [0, T), none is empty, and every pair index below [T]
    lies in exactly one of them. *)
Theorem windows_partition_the_pairs env sequences T B :
  0 <= T <= INT_MAX -> 1 <= B < SIZE_MOD ->
  exists d,
    (forall fuel, (Z.to_nat (ceil_div T B) <= fuel)%nat ->
       driver_loop env sequences B T fuel driver_init = Some d) /\
    (forall j, (j < length (calls d))%nat ->
       0 <= fst (nth j (calls d) (0, 0)) /\
       1 <= snd (nth j (calls d) (0, 0)) /\
       fst (nth j (calls d) (0, 0)) + snd (nth j (calls d) (0, 0)) <= T) /\
    (forall p, 0 <= p < T ->
       exists j,
         (j < length (calls d))%nat /\
         fst (nth j (calls d) (0, 0)) <= p
           < fst (nth j (calls d) (0, 0)) + snd (nth j (calls d) (0, 0)) /\
         forall j',
           (j' < length (calls d))%nat ->
           fst (nth j' (calls d) (0, 0)) <= p
             < fst (nth j' (calls d) (0, 0)) + snd (nth j' (calls d) (0, 0)) ->
           j' = j).
Proof.
  intros HT HB.
  destruct (driver_loop_from_init env sequences B T HB HT)
    as (d & Hrun & _ & _ & _ & Hcalls & _).
  destruct (ceil_div_bounds T B) as (Hk0 & Hk1 & Hk2); [lia|lia|].
  set (k := Z.to_nat (ceil_div T B)) in *.
  assert (Hk : Z.of_nat k = ceil_div T B) by (subst k; apply Z2Nat.id; lia).
  assert (Hlen : length (calls d) = k)
    by (rewrite Hcalls; apply batch_windows_length).
  assert (Hnth : forall j, (j < k)%nat ->
            nth j (calls d) (0, 0)
            = (Z.of_nat j * B, Z.min B (T - Z.of_nat j * B))).
  { intros j Hj; rewrite Hcalls, batch_windows_nth by exact Hj.
    now rewrite Z.add_0_l. }
  exists d; split; [exact Hrun|]; rewrite Hlen; split.
  - intros j Hj; rewrite Hnth by exact Hj; cbn [fst snd].
    assert (Z.of_nat j * B < T) by nia. lia.
  - intros p Hp.
    pose proof (Z.div_mod p B ltac:(lia)) as E.
    pose proof (Z.mod_pos_bound p B ltac:(lia)) as R.
    assert (Hq : 0 <= p / B) by (apply Z.div_pos; lia).
    assert (Hqk : p / B < ceil_div T B) by nia.
    exists (Z.to_nat (p / B)); split; [lia|]; split.
    + rewrite Hnth by lia; cbn [fst snd]. rewrite Z2Nat.id by lia. nia.
    + intros j' Hj' Hin. rewrite Hnth in Hin by exact Hj'; cbn [fst snd] in Hin.
      assert (Z.of_nat j' = p / B) by nia. lia.
Qed.

Lemma windows_partition_the_pairs_witness :
  exists d,
    (forall fuel, (Z.to_nat (ceil_div 5 2) <= fuel)%nat ->
       driver_loop example_env
         (built_store example_env 4 2 (chars example_file)) 2 5 fuel
         driver_init = Some d) /\
    (forall j, (j < length (calls d))%nat ->
       0 <= fst (nth j (calls d) (0, 0)) /\
       1 <= snd (nth j (calls d) (0, 0)) /\
       fst (nth j (calls d) (0, 0)) + snd (nth j (calls d) (0, 0)) <= 5) /\
    (forall p, 0 <= p < 5 ->
       exists j,
         (j < length (calls d))%nat /\
         fst (nth j (calls d) (0, 0)) <= p
           < fst (nth j (calls d) (0, 0)) + snd (nth j (calls d) (0, 0)) /\
         forall j',
           (j' < length (calls d))%nat ->
           fst (nth j' (calls d) (0, 0)) <= p
             < fst (nth j' (calls d) (0, 0)) + snd (nth j' (calls d) (0, 0)) ->
           j' = j).
Proof.
  apply (windows_partition_the_pairs example_env
           (built_store example_env 4 2 (chars example_file)) 5 2);
    unfold INT_MAX, SIZE_MOD; lia.
Defined.

(** ** Batch sizes that are not positive *)

(** X10, a negative batch size: converted to [size_t] it is above every
    number of pairs, so it is replaced by the number of pairs, with the
    message on the error stream, and the loop makes one call for all the
    pairs. *)
Theorem negative_batch_size_runs_one_batch env sequences T B_cli :
  1 <= T <= INT_MAX -> INT_MIN <= B_cli < 0 ->
  exists d,
    clamp_batch_size (to_size_t B_cli) T = (T, ErrBatchSizeChanged T) /\
    (forall fuel, (1 <= fuel)%nat ->
       driver_loop env sequences (fst (clamp_batch_size (to_size_t B_cli) T)) T
         fuel driver_init = Some d) /\
    calls d = [(0, T)].
Proof.
  intros HT HB.
  assert (Hmax : INT_MAX = 2147483647) by reflexivity.
  assert (Hmin : INT_MIN = -2147483648) by reflexivity.
  assert (Hmod : SIZE_MOD = 18446744073709551616) by reflexivity.
  assert (Hwrap : to_size_t B_cli = SIZE_MOD + B_cli).
  { unfold to_size_t.
    replace B_cli with (SIZE_MOD + B_cli + (-1) * SIZE_MOD) at 1 by lia.
    rewrite Z.mod_add, Z.mod_small; lia. }
  assert (Hclamp : clamp_batch_size (to_size_t B_cli) T
                   = (T, ErrBatchSizeChanged T)).
  { unfold clamp_batch_size.
    rewrite (to_size_t_of_int T), Hwrap by lia.
    destruct (Z.gtb_spec (SIZE_MOD + B_cli) T); [reflexivity | lia]. }
  assert (Hone : ceil_div T T = 1).
  { unfold ceil_div. replace (T + T - 1) with (1 * T + (T - 1)) by lia.
    rewrite Z.div_add_l, Z.div_small; lia. }
  destruct (driver_loop_from_init env sequences T T)
    as (d & Hrun & _ & _ & _ & Hcalls & _); [lia|lia|].
  rewrite Hone in *.
  exists d; rewrite Hclamp; cbn [fst].
  split; [reflexivity|]; split; [exact Hrun|].
  rewrite Hcalls; change (Z.to_nat 1) with 1%nat; cbn [batch_windows].
  rewrite Z.sub_0_r, Z.min_id; reflexivity.
Qed.

Lemma negative_batch_size_runs_one_batch_witness :
  exists d,
    clamp_batch_size (to_size_t (-5)) 2 = (2, ErrBatchSizeChanged 2) /\
    (forall fuel, (1 <= fuel)%nat ->
       driver_loop example_env
         (built_store example_env 4 2 (chars example_file))
         (fst (clamp_batch_size (to_size_t (-5)) 2)) 2 fuel driver_init
       = Some d) /\
    calls d = [(0, 2)].
Proof.
  apply (negative_batch_size_runs_one_batch example_env
           (built_store example_env 4 2 (chars example_file)) 2 (-5));
    unfold INT_MIN, INT_MAX; lia.
Defined.

(** X11, a batch size of 0: when the fifth argument reads as 0 (as any
    text without a leading number does) and there is at least one pair,
    the batch size is not changed and [main] never returns, once the store
    is built. *)
Theorem zero_batch_size_never_returns
    env prog file sl sn sb sequences out0 :
  atoi sb = 0 -> 0 < atoi sn ->
  Sequences_new env file (atoi sl) (atoi sn) = Built sequences out0 ->
  clamp_batch_size (to_size_t (atoi sb)) (atoi sn) = (0, OutBatchSizeSet 0) /\
  forall fuel, main env fuel [prog; file; sl; sn; sb] = None.
Proof.
  intros Hb HT Hbuilt.
  pose proof (atoi_range sn) as Hint; unfold in_int in Hint.
  assert (Hclamp : clamp_batch_size (to_size_t (atoi sb)) (atoi sn)
                   = (0, OutBatchSizeSet 0)).
  { rewrite Hb; unfold clamp_batch_size.
    rewrite (to_size_t_of_int (atoi sn)) by lia.
    change (to_size_t 0) with 0.
    destruct (Z.gtb_spec 0 (atoi sn)); [lia | reflexivity]. }
  split; [exact Hclamp|].
  intros fuel.
  rewrite main_with_arguments by (cbn; lia).
  cbn [given_batch_size]; rewrite Hclamp, Hbuilt.
  rewrite driver_loop_zero_runs_on; [reflexivity | lia | reflexivity].
Qed.

Lemma zero_batch_size_never_returns_witness :
  clamp_batch_size (to_size_t (atoi "none")) (atoi "2") = (0, OutBatchSizeSet 0) /\
  forall fuel,
    main example_env fuel ["nvbio-benchmark"; "reads.txt"; "4"; "2"; "none"]%string
    = None.
Proof.
  apply (zero_batch_size_never_returns example_env "nvbio-benchmark"
           "reads.txt" "4" "2" "none"
           (built_store example_env 4 2 (chars example_file))
           [OutSequencesInfo "reads.txt" 4 2; OutAllocating 0; OutRead 4 0]).
  - reflexivity.
  - vm_compute; reflexivity.
  - vm_compute; reflexivity.
Defined.

(** ** What a run prints *)

(** X12, the output of a finished run: with at least one pair, a batch
    size that is not 0 and batches whose bytes fit the [uint32] size of the
    host vectors (so that no copy leaves its vector), the batch size after
    the clamp lies between 1 and the number of pairs, and [main] prints, in
    this order, the message of the clamp, the output of the constructor,
    one message per batch, numbered from 0 to
    [ceil(num_alignments / batch_size) - 1], and the performance line,
    then returns 0; it has not returned before the last batch. *)
Theorem finished_run_output env prog file sl sn rest sequences out0 :
  (length rest <= 1)%nat ->
  Sequences_new env file (atoi sl) (atoi sn) = Built sequences out0 ->
  1 <= atoi sn ->
  given_batch_size rest <> 0 ->
  fst (clamp_batch_size (given_batch_size rest) (atoi sn)) * to_size_t (atoi sl)
    < UINT32_MOD ->
  let batch_size := fst (clamp_batch_size (given_batch_size rest) (atoi sn)) in
  let msg := snd (clamp_batch_size (given_batch_size rest) (atoi sn)) in
  let k := Z.to_nat (ceil_div (atoi sn) batch_size) in
  1 <= batch_size <= atoi sn /\
  exists total,
    (forall fuel, (k <= fuel)%nat ->
       main env fuel (prog :: file :: sl :: sn :: rest)
       = Some (Exit 0,
               msg :: out0 ++ batch_messages k 0
               ++ [OutPerformance (atoi sn) total
                     (gcups (atoi sn) (atoi sl) total)])) /\
    (forall fuel, (fuel < k)%nat ->
       main env fuel (prog :: file :: sl :: sn :: rest) = None).
Proof.
  intros Hlen Hbuilt HT Hb Hfit batch_size msg k.
  pose proof (atoi_range sn) as Hint; unfold in_int in Hint.
  pose proof (given_batch_size_range rest) as Hrange.
  pose proof (Sequences_new_seq_len _ _ _ _ _ _ Hbuilt) as Hstride.
  pose proof (to_size_t_range (atoi sl)) as Hstride_range.
  fold batch_size in Hfit.
  assert (Hmax : INT_MAX = 2147483647) by reflexivity.
  assert (Hmod : SIZE_MOD = 18446744073709551616) by reflexivity.
  assert (Hsize : 1 <= batch_size <= atoi sn).
  { subst batch_size; unfold clamp_batch_size.
    rewrite to_size_t_of_int by lia.
    destruct (Z.gtb_spec (given_batch_size rest) (atoi sn)); cbn [fst]; lia. }
  split; [exact Hsize|].
  destruct (driver_loop_from_init env sequences batch_size (atoi sn))
    as (d & Hrun & Hstuck & _ & _ & _ & Hpr); [lia | lia |].
  fold k in Hrun, Hstuck, Hpr.
  assert (Hdef : fault d = None).
  { apply (driver_loop_no_fault env sequences batch_size (atoi sn)
             ltac:(lia) ltac:(lia) ltac:(rewrite Hstride; exact Hfit)
             _ driver_init d eq_refl (Hrun _ (Nat.le_refl _))). }
  exists (total_time d); split; intros fuel Hf;
    rewrite main_with_arguments by exact Hlen;
    destruct (clamp_batch_size (given_batch_size rest) (atoi sn))
      as [b m] eqn:Hclamp; cbn [fst snd] in *; subst batch_size msg;
    rewrite Hbuilt.
  - rewrite Hrun, Hdef, Hpr by exact Hf; reflexivity.
  - rewrite Hstuck by exact Hf; reflexivity.
Qed.

Lemma finished_run_output_witness :
  1 <= fst (clamp_batch_size (given_batch_size ["1"%string]) (atoi "2"))
    <= atoi "2" /\
  exists total,
    (forall fuel,
       (Z.to_nat (ceil_div (atoi "2")
                    (fst (clamp_batch_size (given_batch_size ["1"%string])
                            (atoi "2")))) <= fuel)%nat ->
       main example_env fuel
         ["nvbio-benchmark"; "reads.txt"; "4"; "2"; "1"]%string
       = Some (Exit 0,
               snd (clamp_batch_size (given_batch_size ["1"%string]) (atoi "2"))
               :: [OutSequencesInfo "reads.txt" 4 2; OutAllocating 0;
                   OutRead 4 0]
               ++ batch_messages
                    (Z.to_nat (ceil_div (atoi "2")
                                 (fst (clamp_batch_size
                                         (given_batch_size ["1"%string])
                                         (atoi "2"))))) 0
               ++ [OutPerformance (atoi "2") total
                     (gcups (atoi "2") (atoi "4") total)])) /\
    (forall fuel,
       (fuel < Z.to_nat (ceil_div (atoi "2")
                           (fst (clamp_batch_size
                                   (given_batch_size ["1"%string])
                                   (atoi "2")))))%nat ->
       main example_env fuel
         ["nvbio-benchmark"; "reads.txt"; "4"; "2"; "1"]%string = None).
Proof.
  apply (finished_run_output example_env "nvbio-benchmark" "reads.txt"
           "4" "2" ["1"%string]
           (built_store example_env 4 2 (chars example_file))
           [OutSequencesInfo "reads.txt" 4 2; OutAllocating 0; OutRead 4 0]).
  - cbn; lia.
  - vm_compute; reflexivity.
  - vm_compute; discriminate.
  - vm_compute; discriminate.
  - vm_compute; reflexivity.
Defined.

(** X13, a run without pairs: when the number of pairs reads as 0, [main]
    calls [batch_alignment_test] not once, the total time stays 0, and the
    performance printed is 0 cells over 0 seconds: not a number. *)
Theorem no_pair_reports_nan env prog file sl sn rest sequences out0 :
  (length rest <= 1)%nat ->
  atoi sn = 0 ->
  Sequences_new env file (atoi sl) (atoi sn) = Built sequences out0 ->
  forall fuel,
    main env fuel (prog :: file :: sl :: sn :: rest)
    = Some (Exit 0,
            snd (clamp_batch_size (given_batch_size rest) 0)
            :: out0 ++ [OutPerformance 0 PrimFloat.zero PrimFloat.nan]).
Proof.
  intros Hlen HT Hbuilt fuel.
  rewrite main_with_arguments by exact Hlen.
  rewrite Hbuilt, HT.
  destruct (clamp_batch_size (given_batch_size rest) 0) as [b m].
  rewrite driver_loop_no_pair; cbn [printed total_time driver_init app snd].
  reflexivity.
Qed.

Lemma no_pair_reports_nan_witness :
  main example_env 0 ["nvbio-benchmark"; "reads.txt"; "4"; "0"]%string
  = Some (Exit 0,
          snd (clamp_batch_size (given_batch_size []) 0)
          :: [OutSequencesInfo "reads.txt" 4 0; OutAllocating 0; OutRead 0 0]
          ++ [OutPerformance 0 PrimFloat.zero PrimFloat.nan]).
Proof.
  apply (no_pair_reports_nan example_env "nvbio-benchmark" "reads.txt"
           "4" "0" []
           (built_store example_env 4 0 (chars example_file))
           [OutSequencesInfo "reads.txt" 4 0; OutAllocating 0; OutRead 0 0]).
  - cbn; lia.
  - reflexivity.
  - vm_compute; reflexivity.
Defined.

(** ** Runs too short for the timer *)

(** The binary64 specification: the mantissa of a positive number has as
    many bits as [digits2_pos] says. *)
Lemma digits2_pos_bounds p :
  2 ^ (Z.pos (digits2_pos p) - 1) <= Z.pos p < 2 ^ Z.pos (digits2_pos p).
Proof.
  induction p as [p IH|p IH|]; cbn [digits2_pos].
  - rewrite Pos2Z.inj_succ.
    replace (Z.succ (Z.pos (digits2_pos p)) - 1) with (Z.succ (Z.pos (digits2_pos p) - 1)) by lia.
    rewrite !Z.pow_succ_r by lia. lia.
  - rewrite Pos2Z.inj_succ.
    replace (Z.succ (Z.pos (digits2_pos p)) - 1) with (Z.succ (Z.pos (digits2_pos p) - 1)) by lia.
    rewrite !Z.pow_succ_r by lia. lia.
  - cbn; lia.
Qed.

Lemma shr_1_m mrs : 0 <= shr_m mrs -> shr_m (shr_1 mrs) = shr_m mrs / 2.
Proof.
  destruct mrs as [m r s]; cbn [shr_m shr_1]; intros H.
  destruct m as [|[p|p|]|p]; cbn [shr_m]; try lia; try reflexivity.
  - rewrite Pos2Z.inj_xI. apply Z.div_unique with (r := 1); lia.
  - rewrite Pos2Z.inj_xO. apply Z.div_unique with (r := 0); lia.
Qed.

Lemma iter_shr_1_m n : forall mrs,
  0 <= shr_m mrs -> shr_m (iter_pos shr_1 n mrs) = shr_m mrs / 2 ^ Z.pos n.
Proof.
  induction n as [n IH|n IH|]; intros mrs H; cbn [iter_pos];
    try assert (Hp : 0 < 2 ^ Z.pos n) by (apply Z.pow_pos_nonneg; lia).
  - assert (H1 : 0 <= shr_m (shr_1 mrs)) by (rewrite shr_1_m by lia; apply Z.div_pos; lia).
    assert (H2 : 0 <= shr_m (iter_pos shr_1 n (shr_1 mrs)))
      by (rewrite IH by lia; apply Z.div_pos; lia).
    assert (E : 2 ^ Z.pos n~1 = 2 * 2 ^ Z.pos n * 2 ^ Z.pos n).
    { replace (Z.pos n~1) with (1 + Z.pos n + Z.pos n) by lia.
      rewrite !Z.pow_add_r by lia. reflexivity. }
    rewrite IH, IH, shr_1_m by lia.
    rewrite !Z.div_div by nia. f_equal. rewrite E. ring.
  - assert (H2 : 0 <= shr_m (iter_pos shr_1 n mrs))
      by (rewrite IH by lia; apply Z.div_pos; lia).
    assert (E : 2 ^ Z.pos n~0 = 2 ^ Z.pos n * 2 ^ Z.pos n).
    { replace (Z.pos n~0) with (Z.pos n + Z.pos n) by lia.
      rewrite !Z.pow_add_r by lia. reflexivity. }
    rewrite IH, IH by lia.
    rewrite !Z.div_div by nia. f_equal. rewrite E. ring.
  - apply shr_1_m; exact H.
Qed.

Lemma shr_fexp_positive m e l :
  0 < m -> -1074 <= e ->
  0 < shr_m (fst (shr_fexp 53 1024 m e l)) /\ -1074 <= snd (shr_fexp 53 1024 m e l).
Proof.
  intros Hm He.
  destruct m as [|p|p]; try lia.
  unfold shr_fexp, shr, fexp, emin, Zdigits2.
  pose proof (digits2_pos_bounds p) as Hd.
  set (d := Z.pos (digits2_pos p)) in *.
  assert (Hrec : shr_m (shr_record_of_loc (Z.pos p) l) = Z.pos p)
    by (destruct l as [|[| |]]; reflexivity).
  destruct (Z.max (d + e - 53) (3 - 1024 - 53) - e) as [|n|n] eqn:En;
    cbn [fst snd]; try (rewrite Hrec; lia).
  rewrite iter_shr_1_m by (rewrite Hrec; lia).
  rewrite Hrec; split; [|lia].
  assert (Hn : Z.pos n <= d - 1) by lia.
  apply Z.div_str_pos; split; [lia|].
  apply Z.le_trans with (2 ^ (d - 1)); [|lia].
  apply Z.pow_le_mono_r; lia.
Qed.

Lemma round_nearest_even_positive m l : 0 < m -> 0 < round_nearest_even m l.
Proof.
  intros H; destruct l as [|[| |]]; cbn [round_nearest_even]; try lia.
  destruct (Z.even m); lia.
Qed.

Lemma binary_round_aux_positive m e :
  0 < m -> -1074 <= e ->
  (exists m' e', binary_round_aux 53 1024 false m e loc_Exact = S754_finite false m' e')
  \/ binary_round_aux 53 1024 false m e loc_Exact = S754_infinity false.
Proof.
  intros Hm He; unfold binary_round_aux.
  destruct (shr_fexp_positive m e loc_Exact Hm He) as [H1 H1e].
  destruct (shr_fexp 53 1024 m e loc_Exact) as [mrs' e']; cbn [fst snd] in *.
  pose proof (round_nearest_even_positive (shr_m mrs') (loc_of_shr_record mrs') H1) as H2.
  destruct (shr_fexp_positive _ e' loc_Exact H2 H1e) as [H3 _].
  destruct (shr_fexp 53 1024 _ e' loc_Exact) as [mrs'' e'']; cbn [fst snd] in *.
  destruct (shr_m mrs'') as [|q|q]; try lia.
  destruct (e'' <=? 1024 - 53); [left; eauto | now right].
Qed.

Lemma binary_normalize_positive p :
  (exists m' e', binary_normalize 53 1024 (Z.pos p) 0 false = S754_finite false m' e')
  \/ binary_normalize 53 1024 (Z.pos p) 0 false = S754_infinity false.
Proof.
  unfold binary_normalize, binary_round.
  destruct (shl_align p 0 _) as [mz ez] eqn:E.
  apply binary_round_aux_positive; [lia|].
  unfold shl_align in E.
  destruct (fexp 53 1024 (Z.pos (digits2_pos p) + 0) - 0) as [|n|n] eqn:En;
    injection E as <- <-; try lia.
  unfold fexp, emin in *; lia.
Qed.

Lemma Prim2SF_double_of_Z z :
  0 <= z < 2 ^ 63 ->
  Prim2SF (double_of_Z z) = binary_normalize 53 1024 z 0 false.
Proof.
  intros Hz; unfold double_of_Z.
  assert (E : binary_normalize 53 1024 z 0 false
              = Prim2SF (of_uint63 (Uint63.of_Z z))).
  { rewrite of_uint63_spec, Uint63.of_Z_spec.
    rewrite Z.mod_small; [reflexivity|]. exact Hz. }
  rewrite E, SF2Prim_Prim2SF; reflexivity.
Qed.

Lemma div_by_zero_is_infinity z :
  1 <= z < 2 ^ 63 ->
  PrimFloat.div (double_of_Z z) PrimFloat.zero = PrimFloat.infinity.
Proof.
  intros Hz. apply Prim2SF_inj.
  rewrite div_spec, Prim2SF_double_of_Z by lia.
  destruct z as [|p|p]; try lia.
  change (Prim2SF PrimFloat.zero) with (S754_zero false).
  change (Prim2SF infinity) with (S754_infinity false).
  destruct (binary_normalize_positive p) as [(m' & e' & ->)| ->]; reflexivity.
Qed.

(** With every reading at 0 ms the total stays 0. *)
Lemma driver_loop_time_zero env sequences batch_size total :
  (forall offset size, batch_timer_ms env offset size = 0) ->
  forall fuel d d',
    total_time d = PrimFloat.zero ->
    driver_loop env sequences batch_size total fuel d = Some d' ->
    total_time d' = PrimFloat.zero.
Proof.
  intros Hms; induction fuel as [|fuel IH]; intros d d' Hd; cbn [driver_loop];
    destruct (alignments_computed d <? to_size_t total);
    try discriminate; try (intros H; injection H as <-; exact Hd).
  apply IH.
  cbn [driver_step total_time batch_alignment_test time_after].
  rewrite Hms, Hd; reflexivity.
Qed.

(** Over a total time of 0 the throughput of a positive number of cells is
    infinite. *)
Lemma gcups_of_zero_time T s :
  1 <= T <= INT_MAX -> 1 <= s * s <= INT_MAX ->
  gcups T s PrimFloat.zero = PrimFloat.infinity.
Proof.
  intros HT Hs; unfold gcups; cbv zeta.
  assert (Hmax : INT_MAX = 2147483647) by reflexivity.
  assert (Hmod : SIZE_MOD = 18446744073709551616) by reflexivity.
  rewrite to_int_small by (unfold in_int, INT_MIN; lia).
  rewrite (to_size_t_of_int T), (to_size_t_of_int (s * s)) by lia.
  rewrite to_size_t_small by nia.
  change (PrimFloat.div PrimFloat.zero (double_of_Z 1000)) with PrimFloat.zero.
  rewrite div_by_zero_is_infinity by nia.
  reflexivity.
Qed.

(** X14, a run the timer cannot measure: when every batch takes less than
    a millisecond (each reading of the timer is 0) and the bytes of a
    batch fit the [uint32] size of the host vectors (so that no copy
    leaves its vector), the total time printed is 0 and, for at least one
    pair and a stride that is not 0, the performance printed is
    infinite. *)
Theorem unmeasured_run_reports_infinity
    env prog file sl sn rest sequences out0 :
  (length rest <= 1)%nat ->
  Sequences_new env file (atoi sl) (atoi sn) = Built sequences out0 ->
  1 <= atoi sn ->
  given_batch_size rest <> 0 ->
  1 <= atoi sl * atoi sl <= INT_MAX ->
  fst (clamp_batch_size (given_batch_size rest) (atoi sn)) * to_size_t (atoi sl)
    < UINT32_MOD ->
  (forall offset size, batch_timer_ms env offset size = 0) ->
  exists fuel0 out,
    forall fuel, (fuel0 <= fuel)%nat ->
      main env fuel (prog :: file :: sl :: sn :: rest)
      = Some (Exit 0,
              out ++ [OutPerformance (atoi sn) PrimFloat.zero
                        PrimFloat.infinity]).
Proof.
  intros Hlen Hbuilt HT Hb Hs Hfit Hms.
  pose proof (atoi_range sn) as Hint; unfold in_int in Hint.
  pose proof (given_batch_size_range rest) as Hrange.
  pose proof (Sequences_new_seq_len _ _ _ _ _ _ Hbuilt) as Hstride.
  pose proof (to_size_t_range (atoi sl)) as Hstride_range.
  destruct (clamp_batch_size (given_batch_size rest) (atoi sn))
    as [batch_size msg] eqn:Hclamp; cbn [fst] in Hfit.
  assert (Hsize : 1 <= batch_size < SIZE_MOD).
  { replace batch_size
      with (fst (clamp_batch_size (given_batch_size rest) (atoi sn)))
      by (now rewrite Hclamp).
    apply clamped_batch_size_positive; lia. }
  destruct (driver_loop_from_init env sequences batch_size (atoi sn))
    as (d & Hrun & _); [exact Hsize | lia |].
  assert (Htime : total_time d = PrimFloat.zero).
  { apply (driver_loop_time_zero env sequences batch_size (atoi sn) Hms
             _ driver_init d eq_refl (Hrun _ (Nat.le_refl _))). }
  assert (Hdef : fault d = None).
  { apply (driver_loop_no_fault env sequences batch_size (atoi sn)
             ltac:(lia) ltac:(lia) ltac:(rewrite Hstride; exact Hfit)
             _ driver_init d eq_refl (Hrun _ (Nat.le_refl _))). }
  exists (Z.to_nat (ceil_div (atoi sn) batch_size)).
  exists (msg :: out0 ++ printed d); intros fuel Hf.
  rewrite main_with_arguments, Hclamp, Hbuilt, Hrun by assumption.
  rewrite Hdef, Htime, gcups_of_zero_time by lia.
  cbn [app]; rewrite <- app_assoc; reflexivity.
Qed.

Lemma unmeasured_run_reports_infinity_witness :
  exists fuel0 out,
    forall fuel, (fuel0 <= fuel)%nat ->
      main fast_env fuel ["nvbio-benchmark"; "reads.txt"; "4"; "2"]%string
      = Some (Exit 0,
              out ++ [OutPerformance (atoi "2") PrimFloat.zero
                        PrimFloat.infinity]).
Proof.
  apply (unmeasured_run_reports_infinity fast_env "nvbio-benchmark"
           "reads.txt" "4" "2" []
           (built_store fast_env 4 2 (chars example_file))
           [OutSequencesInfo "reads.txt" 4 2; OutAllocating 0; OutRead 4 0]).
  - cbn; lia.
  - vm_compute; reflexivity.
  - vm_compute; discriminate.
  - vm_compute; discriminate.
  - vm_compute; split; discriminate.
  - vm_compute; reflexivity.
  - reflexivity.
Defined.

(** ** Files in the documented format *)

Lemma getlines_from_line cur line rest :
  ~ In NEWLINE line ->
  getlines_from cur (line ++ NEWLINE :: rest)
  = (rev cur ++ line) :: getlines_from [] rest.
Proof.
  revert cur; induction line as [|c line IH]; intros cur Hnl.
  - cbn [app getlines_from]. rewrite Ascii.eqb_refl, app_nil_r; reflexivity.
  - cbn [app getlines_from].
    destruct (Ascii.eqb_spec c NEWLINE) as [E|_].
    + exfalso; apply Hnl; now left.
    + rewrite IH by (intros Hin; apply Hnl; now right).
      cbn [rev]; rewrite <- app_assoc; reflexivity.
Qed.

(** Reading back a file written line by line gives the lines. *)
Lemma getlines_file_of_lines lines :
  Forall (fun line => ~ In NEWLINE line) lines ->
  getlines (file_of_lines lines) = lines.
Proof.
  unfold getlines, file_of_lines.
  induction 1 as [|line lines Hline _ IH]; [reflexivity|].
  cbn [map concat]; rewrite <- app_assoc; cbn [app].
  rewrite getlines_from_line by exact Hline.
  cbn [rev app]; now rewrite IH.
Qed.

Lemma stored_slots_of_records env stride k records :
  0 <= stride ->
  Forall (storable stride) records ->
  stored_slots env (Z.to_nat stride) k (map marked_line records)
  = map (padded stride) records.
Proof.
  intros Hs Hall; revert k.
  induction Hall as [|r records (_ & _ & Hnul & Hfit) _ IH]; intros k;
    [reflexivity|].
  cbn [map stored_slots marked_line c_str_plus_1]; rewrite IH; f_equal.
  unfold strncpy_bytes, padded; cbv zeta.
  rewrite c_string_terminated, (c_string_no_nul _ Hnul).
  rewrite firstn_all2 by lia; reflexivity.
Qed.

Lemma stored_len_of_records stride records :
  0 <= stride <= INT_MAX ->
  Forall (storable stride) records ->
  map stored_len (map marked_line records)
  = map (fun r => Some (Z.of_nat (length (snd r)))) records.
Proof.
  intros Hs Hall.
  induction Hall as [|r records (_ & _ & _ & Hfit) _ IH]; [reflexivity|].
  cbn [map]; rewrite IH; f_equal.
  unfold stored_len, marked_line; cbn [length]; f_equal.
  rewrite to_size_t_small, to_int_small;
    unfold in_int, INT_MIN, INT_MAX, SIZE_MOD in *; lia.
Qed.

(** X15, a file in the documented format: when the file is the [2 * pairs]
    marked lines of sequences that have no newline and no NUL and fit the
    stride, the buffer of the store is the sequences in the order of the
    file, each padded with zeros to the stride, and the array of lengths
    holds their lengths. *)
Theorem well_formed_file_is_stored env filepath stride pairs records :
  constructible env filepath stride pairs
    (file_of_lines (map marked_line records)) ->
  Forall (storable stride) records ->
  Z.of_nat (length records) = pairs * 2 ->
  exists out,
    Sequences_new env filepath stride pairs
    = Built {| seq_len := stride;
               num_alignments := pairs;
               sequences_buffer := concat (map (padded stride) records);
               sequences_len :=
                 map (fun r => Some (Z.of_nat (length (snd r)))) records |}
        out.
Proof.
  intros Hc Hall Hcount.
  pose proof Hc as (Hs & Hp & Ha & Hl & Hf).
  assert (Hlines : getlines (file_of_lines (map marked_line records))
                   = map marked_line records).
  { apply getlines_file_of_lines.
    clear -Hall; induction Hall as [|r records (Hm & Hnl & _) _ IH];
      cbn [map]; constructor; [|exact IH].
    intros [E|Hin]; [apply Hm; exact E | apply Hnl; exact Hin]. }
  eexists.
  rewrite (Sequences_new_built env filepath stride pairs _ Hs Hp Ha Hl Hf).
  f_equal; unfold built_store; rewrite Hlines.
  assert (Hslots : Z.to_nat (pairs * 2) = length (map marked_line records))
    by (rewrite length_map; lia).
  rewrite Hslots, firstn_all, Nat.min_id, Nat.sub_diag.
  cbn [Nat.mul nzeros repeat]; rewrite !app_nil_r.
  rewrite stored_slots_of_records, (stored_len_of_records stride) by (assumption || lia).
  reflexivity.
Qed.

Lemma well_formed_file_is_stored_witness :
  exists out,
    Sequences_new pairs_env "reads.txt" 2 2
    = Built {| seq_len := 2;
               num_alignments := 2;
               sequences_buffer :=
                 concat (map (padded 2)
                           [(">"%char, chars "AA"); ("<"%char, chars "CC");
                            (">"%char, chars "GG"); ("<"%char, chars "TT")]);
               sequences_len :=
                 map (fun r => Some (Z.of_nat (length (snd r))))
                   [(">"%char, chars "AA"); ("<"%char, chars "CC");
                    (">"%char, chars "GG"); ("<"%char, chars "TT")] |}
        out.
Proof.
  apply (well_formed_file_is_stored pairs_env "reads.txt" 2 2
           [(">"%char, chars "AA"); ("<"%char, chars "CC");
            (">"%char, chars "GG"); ("<"%char, chars "TT")]).
  - unfold constructible; repeat split; vm_compute; congruence.
  - repeat constructor; vm_compute; intuition discriminate.
  - reflexivity.
Defined.

(** ** Runs with a batch too large for the host vectors *)

(** X16, a run with a batch of 2^32 bytes or more: with at least one pair,
    a batch size that is not 0 and a stride that is not negative, when the
    batch size after the clamp times the stride reaches 2^32 the first
    call of [batch_alignment_test] writes outside its host vectors: the
    run is undefined from its first batch on, and [main] does not return
    0; of its output only the message of the clamp and the output of the
    constructor are certain. *)
Theorem oversized_batch_run_is_undefined
    env prog file sl sn rest sequences out0 :
  (length rest <= 1)%nat ->
  Sequences_new env file (atoi sl) (atoi sn) = Built sequences out0 ->
  1 <= atoi sn ->
  given_batch_size rest <> 0 ->
  0 <= atoi sl ->
  UINT32_MOD
    <= fst (clamp_batch_size (given_batch_size rest) (atoi sn)) * atoi sl ->
  exists fuel0,
    forall fuel, (fuel0 <= fuel)%nat ->
      main env fuel (prog :: file :: sl :: sn :: rest)
      = Some (Undefined,
              snd (clamp_batch_size (given_batch_size rest) (atoi sn)) :: out0).
Proof.
  intros Hlen Hbuilt HT Hb Hs Hbig.
  pose proof (atoi_range sn) as Hint; unfold in_int in Hint.
  pose proof (atoi_range sl) as Hints; unfold in_int in Hints.
  pose proof (given_batch_size_range rest) as Hrange.
  pose proof (Sequences_new_seq_len _ _ _ _ _ _ Hbuilt) as Hstride.
  assert (Hmax : INT_MAX = 2147483647) by reflexivity.
  assert (Hmod : SIZE_MOD = 18446744073709551616) by reflexivity.
  assert (Hmod32 : UINT32_MOD = 4294967296) by reflexivity.
  rewrite to_size_t_of_int in Hstride by lia.
  destruct (clamp_batch_size (given_batch_size rest) (atoi sn))
    as [batch_size msg] eqn:Hclamp; cbn [fst snd] in *.
  assert (Hsize : 1 <= batch_size <= atoi sn).
  { revert Hclamp; unfold clamp_batch_size.
    rewrite to_size_t_of_int by lia.
    destruct (Z.gtb_spec (given_batch_size rest) (atoi sn));
      intros E; injection E as <- _; lia. }
  destruct (driver_loop_from_init env sequences batch_size (atoi sn))
    as (d & Hrun & _); [lia | lia |].
  destruct (ceil_div_bounds (atoi sn) batch_size) as (Hk0 & Hk1 & Hk2);
    [lia|lia|].
  set (k := Z.to_nat (ceil_div (atoi sn) batch_size)) in *.
  assert (Hk : (1 <= k)%nat) by (subst k; nia).
  assert (Hfault : fault d = Some 0).
  { pose proof (Hrun k (Nat.le_refl _)) as Hd.
    destruct k as [|k']; [lia|].
    cbn [driver_loop] in Hd.
    rewrite (to_size_t_of_int (atoi sn)) in Hd by lia.
    cbn [driver_init alignments_computed] in Hd.
    destruct (Z.ltb_spec 0 (atoi sn)); [|lia].
    apply (driver_loop_fault_kept env sequences batch_size (atoi sn) 0
             k' _ d) in Hd; [exact Hd|].
    cbn [driver_step fault driver_init alignments_computed cnt total_time].
    rewrite (to_size_t_of_int (atoi sn)), Z.sub_0_r by lia.
    rewrite (to_size_t_of_int (atoi sn)) by lia.
    rewrite Z.min_l by lia.
    rewrite to_uint32_small by lia.
    destruct (oversized_copies_fail env sequences 0 batch_size PrimFloat.zero)
      as (Hp & _); [lia | lia | rewrite Hstride; exact Hbig |].
    unfold copies_defined; rewrite Hp; reflexivity. }
  exists k; intros fuel Hf.
  rewrite main_with_arguments, Hclamp, Hbuilt, Hrun, Hfault by assumption.
  change (Z.to_nat 0) with 0%nat; rewrite firstn_O, app_nil_r; reflexivity.
Qed.

Lemma oversized_batch_run_is_undefined_witness :
  exists fuel0,
    forall fuel, (fuel0 <= fuel)%nat ->
      main example_env fuel
        ["nvbio-benchmark"; "reads.txt"; "2147483647"; "3"]%string
      = Some (Undefined,
              snd (clamp_batch_size (given_batch_size []) (atoi "3"))
              :: [OutSequencesInfo "reads.txt" 2147483647 3;
                  OutAllocating (3 * 2147483647 * 2 / 2 ^ 20);
                  OutRead
                    (Z.of_nat
                       (Nat.min (Z.to_nat (3 * 2))
                          (length (getlines (chars example_file)))))
                    (read_timer_ms example_env)]).
Proof.
  apply (oversized_batch_run_is_undefined example_env "nvbio-benchmark"
           "reads.txt" "2147483647" "3" []
           (built_store example_env 2147483647 3 (chars example_file))).
  - cbn; lia.
  - change (atoi "2147483647") with 2147483647; change (atoi "3") with 3.
    apply Sequences_new_built;
      [unfold INT_MAX; lia | unfold INT_MAX; lia
      | reflexivity | reflexivity | reflexivity].
  - change (atoi "3") with 3; lia.
  - cbn [given_batch_size]; lia.
  - change (atoi "2147483647") with 2147483647; lia.
  - change (atoi "2147483647") with 2147483647; change (atoi "3") with 3.
    cbn [given_batch_size]; vm_compute; discriminate.
Defined.
